(** * ts-ast-static-resolver: the resolver of [src/index.ts], embedded in Rocq

    The resolver is a family of mutually recursive functions over three kinds
    of data owned by the TypeScript compiler: syntax nodes, symbols and types.
    The embedding keeps the functions and their names, models the compiler's
    data as inductive types and records with the fields the resolver reads,
    and takes the JavaScript built-ins the resolver calls ([parseFloat],
    [BigInt], [new RegExp], [Number.prototype.toString]) as an interface.
    The assignment [acc[key] = value] by which an object literal is built is
    modelled with what a plain object inherits: the [__proto__] accessor, and
    the conversion of the key to text, which can throw.

    Recursion in the source is bounded only by the call stack, and a call
    chain can go from a symbol to its type and back to the same symbol.  Every
    function therefore takes the number of stack frames still available; a
    call with none left ends in [StackOverflow], which is the [RangeError] a
    JavaScript engine raises when the stack is exhausted. *)

From Stdlib Require Import Ascii.
From stdpp Require Import gmap strings list pretty.

Set Warnings "-register-all".
Local Open Scope Z_scope.

(** ** The JavaScript host *)

(** The built-ins of the JavaScript engine that the resolver calls.  A
    [number] is an IEEE double; the resolver only parses, negates and prints
    it.  [BigInt s] is [None] where the engine raises a [SyntaxError].
    [regExpSyntaxOk p] tells whether [new RegExp(p)] accepts the pattern, and
    [regExpToString p] is the text of the compiled object. *)
Class Host := {
  number : Type;
  parseFloat : string -> number;
  negate : number -> number;
  numberToString : number -> string;
  BigInt : string -> option Z;
  regExpSyntaxOk : string -> bool;
  regExpToString : string -> string;
}.

(** [String.prototype.slice], on strings of one-byte characters. *)
Definition slice (s : string) (start end_ : Z) : string :=
  let len := Z.of_nat (String.length s) in
  let from := if start <? 0 then Z.max (len + start) 0 else Z.min start len in
  let to := if end_ <? 0 then Z.max (len + end_) 0 else Z.min end_ len in
  String.substring (Z.to_nat from) (Z.to_nat (Z.max (to - from) 0)) s.

(** [Array.prototype.join('')] on strings. *)
Definition join (l : list string) : string := String.concat "" l.

(** ** The compiler's data: [ts.Node], [ts.Symbol], [ts.Type] *)

Module ts.

Module SymbolFlags.
Definition FunctionScopedVariable : Z := 1.
Definition BlockScopedVariable : Z := 2.
Definition Property : Z := 4.
Definition Function : Z := 16.
Definition ObjectLiteral : Z := 4096.
Definition Alias : Z := 2097152.
End SymbolFlags.

Module TypeFlags.
Definition Any : Z := 1.
Definition Number : Z := 8.
Definition StringLiteral : Z := 128.
Definition NumberLiteral : Z := 256.
Definition BooleanLiteral : Z := 512.
Definition BigIntLiteral : Z := 2048.
Definition Object : Z := 524288.
End TypeFlags.

Module ObjectFlags.
Definition Reference : Z := 4.
Definition Tuple : Z := 8.
Definition Anonymous : Z := 16.
Definition ObjectLiteral : Z := 128.
End ObjectFlags.

(** The operator token of a prefix unary expression. *)
Inductive PrefixUnaryOperator :=
| PlusToken | MinusToken | TildeToken | ExclamationToken
| PlusPlusToken | MinusMinusToken.

(** Kinds of nodes that [resolveToLiteral] has no case for. *)
Inductive OtherKind :=
| NullKeyword | PrivateIdentifier | BinaryExpression | CallExpression
| PropertyAccessExpression | ArrowFunction | FunctionDeclaration
| MethodDeclaration | GetAccessor | SetAccessor
| SyntaxKindCode (code : Z).

(** A syntax node: one constructor per [SyntaxKind] the resolver inspects,
    with the fields it reads.  An identifier carries its position, since
    the checker binds occurrences, not names.  The members of an object
    literal are nodes as well. *)
Inductive Node :=
| TemplateExpression (head : string) (templateSpans : list (Node * string))
| NumericLiteral (text : string)
| BigIntLiteral (text : string)
| StringLiteral (text : string)
| NoSubstitutionTemplateLiteral (text : string)
| RegularExpressionLiteral (text : string)
| TrueKeyword
| FalseKeyword
| PrefixUnaryExpression (operator : PrefixUnaryOperator) (operand : Node)
| ArrayLiteralExpression (elements : list Node)
| ParenthesizedExpression (expression : Node)
| ComputedPropertyName (expression : Node)
| VariableDeclaration (pos : nat) (initializer : option Node)
| AsExpression (expression : Node)
| ObjectLiteralExpression (properties : list Node)
| Identifier (pos : nat) (escapedText : string)
| PropertyAssignment (name : Node) (initializer : Node)
| ShorthandPropertyAssignment (name : Node)
| SpreadAssignment (expression : Node)
| OtherNode (kind : OtherKind).

(** TypeScript's [escapeLeadingUnderscores]: the parser stores the name of
    an identifier in [escapedText] with one more underscore when the name
    begins with two. *)
Definition escapeLeadingUnderscores (identifier : string) : string :=
  match identifier with
  | String "_" (String "_" _) => String "_" identifier
  | _ => identifier
  end.

(** TypeScript's [unescapeLeadingUnderscores], and [idText], the name of an
    identifier as written in the source ([node.text]). *)
Definition unescapeLeadingUnderscores (identifier : string) : string :=
  match identifier with
  | String "_" (String "_" (String "_" rest)) => String "_" (String "_" rest)
  | _ => identifier
  end.

Definition idText (node : Node) : string :=
  match node with
  | Identifier _ escapedText => unescapeLeadingUnderscores escapedText
  | _ => EmptyString
  end.

(** A template span: the embedded expression and the text of the literal
    that follows it. *)
Definition TemplateSpan : Type := Node * string.

Record Symbol := {
  symbolId : nat;
  flags : Z;
  escapedName : string;
  valueDeclaration : option Node;
}.

Section Types.
Context `{Host}.

(** A type of the checker.  [TypeFlags.StringLiteral] and
    [TypeFlags.NumberLiteral] are the flags of the literal types, which
    carry a [value]; [TypeFlags.Object] those of the object types, which
    carry [objectFlags] and possibly a [symbol]; every other type is
    [OtherType] with its flags. *)
Inductive Type_ :=
| StringLiteralType (value : string)
| NumberLiteralType (value : number)
| ObjectType (typeId : nat) (objectFlags : Z) (symbol : option Symbol)
| OtherType (typeFlags : Z).


(** The queries the resolver makes to [ts.TypeChecker]. *)
Record TypeChecker := {
  getSymbolAtLocation : Node -> option Symbol;
  getAliasedSymbol : Symbol -> Symbol;
  getTypeOfSymbol : Symbol -> Type_;
  getTypeArguments : Type_ -> list Type_;
}.

Record Program := {
  getTypeChecker : TypeChecker;
}.
End Types.

End ts.

(** ** Values and results *)

Section Values.
Context `{H : Host}.

(** A JavaScript value as it occurs in a result: the [unknown] of the
    source.  A compiled pattern is given by the text it was compiled from.
    An object has its own string-keyed properties and a prototype, [None]
    for [Object.prototype] and [Some v] once an assignment to [__proto__]
    has replaced it by the object [v]. *)
Inductive JSValue :=
| VUndefined
| VNumber (n : number)
| VBigInt (z : Z)
| VString (s : string)
| VRegExp (pattern : string)
| VBoolean (b : bool)
| VArray (l : list JSValue)
| VObject (prototype : option JSValue) (own : gmap string JSValue).

(** The object an object literal resolves to. *)
Record JSObject := {
  prototype : option JSValue;
  own : gmap string JSValue;
}.

Inductive JSError := SyntaxError | TypeError.

(** The completion of an operation of the engine: a value or a thrown
    error. *)
Inductive Completion (A : Type) :=
| Normal (a : A)
| Abrupt (e : JSError).

End Values.

Global Arguments Normal {A} a.
Global Arguments Abrupt {A} e.

(** [{}], and [o !! k], the own property [k] of [o]. *)
Global Instance JSObject_empty `{H : Host} : Empty JSObject :=
  {| prototype := None; own := ∅ |}.
Global Instance JSObject_lookup `{H : Host} : Lookup string JSValue JSObject :=
  fun k o => own o !! k.

(** The conversion to a property key of an object whose prototype was
    replaced goes through what the object inherits from that prototype
    ([toString], [join], [length], the accessors of a pattern); it is the
    engine's, given the prototype and the own properties. *)
Class Engine `{H : Host} := {
  exoticToPropertyKey : JSValue -> gmap string JSValue -> Completion string;
}.

Section Resolver.
Context `{H : Host} {E : Engine}.

(** The tagged union [ResolverResult]; [Unresolved] is
    [{ valueType: undefined, value: undefined }]. *)
Inductive ResolverResult :=
| NumericLiteral (value : number)
| BigIntLiteral (value : Z)
| StringLiteral (value : string)
| RegularExpressionLiteral (value : string)
| TrueKeyword
| FalseKeyword
| ArrayLiteralExpression (value : list JSValue)
| ObjectLiteralExpression (value : JSObject)
| Unresolved.

Definition valueType (r : ResolverResult) : option string :=
  match r with
  | NumericLiteral _ => Some "NumericLiteral"
  | BigIntLiteral _ => Some "BigIntLiteral"
  | StringLiteral _ => Some "StringLiteral"
  | RegularExpressionLiteral _ => Some "RegularExpressionLiteral"
  | TrueKeyword => Some "TrueKeyword"
  | FalseKeyword => Some "FalseKeyword"
  | ArrayLiteralExpression _ => Some "ArrayLiteralExpression"
  | ObjectLiteralExpression _ => Some "ObjectLiteralExpression"
  | Unresolved => None
  end%string.

Definition value (r : ResolverResult) : JSValue :=
  match r with
  | NumericLiteral n => VNumber n
  | BigIntLiteral z => VBigInt z
  | StringLiteral s => VString s
  | RegularExpressionLiteral p => VRegExp p
  | TrueKeyword => VBoolean true
  | FalseKeyword => VBoolean false
  | ArrayLiteralExpression l => VArray l
  | ObjectLiteralExpression o => VObject (prototype o) (own o)
  | Unresolved => VUndefined
  end.

(** [Array.prototype.map] on a conversion that may throw. *)
Fixpoint mapCompletion {A B} (f : A -> Completion B) (l : list A)
  : Completion (list B) :=
  match l with
  | [] => Normal []
  | x :: l' =>
      match f x with
      | Normal y =>
          match mapCompletion f l' with
          | Normal ys => Normal (y :: ys)
          | Abrupt e => Abrupt e
          end
      | Abrupt e => Abrupt e
      end
  end.

(** The conversion of a value to a property key ([acc[key.value]]): the
    [ToPropertyKey] of the language.  A primitive value is printed.  A
    compiled pattern and an array are printed by the [toString] of their
    prototypes, the array by [join], which prints an undefined element as the
    empty string and converts the others in turn.  An object with the
    prototype [Object.prototype] is [[object Object]] unless it has an own
    property [toString]: no value of a result is callable, so that property
    and [valueOf] are passed over and the conversion throws a [TypeError]. *)
Fixpoint toPropertyKey (v : JSValue) : Completion string :=
  match v with
  | VUndefined => Normal "undefined"
  | VNumber n => Normal (numberToString n)
  | VBigInt z => Normal (pretty z)
  | VString s => Normal s
  | VRegExp p => Normal (regExpToString p)
  | VBoolean b => Normal (if b then "true" else "false")
  | VArray l =>
      match mapCompletion (fun x => match x with
                                    | VUndefined => Normal ""
                                    | _ => toPropertyKey x
                                    end) l with
      | Normal texts => Normal (String.concat "," texts)
      | Abrupt e => Abrupt e
      end
  | VObject None own =>
      if bool_decide (is_Some (own !! "toString"))
      then Abrupt TypeError
      else Normal "[object Object]"
  | VObject (Some p) own => exoticToPropertyKey p own
  end%string.

(** The accessor properties of [RegExp.prototype] (ECMAScript 2024); none
    has a setter. *)
Definition RegExpPrototypeAccessors : list string :=
  ["dotAll"; "flags"; "global"; "hasIndices"; "ignoreCase"; "multiline";
   "source"; "sticky"; "unicode"; "unicodeSets"]%string.

Definition isObject (v : JSValue) : bool :=
  match v with
  | VRegExp _ | VArray _ | VObject _ _ => true
  | _ => false
  end.

(** [inheritsAccessor k o]: looked up from [o] along the prototype chain,
    the property [k] is first found as an accessor without setter.  An own
    property of an object on the way is a data property; the only such
    accessors on the chains of the values of a result are those of
    [RegExp.prototype]. *)
Fixpoint inheritsAccessor (k : string) (o : JSValue) : bool :=
  match o with
  | VRegExp _ => bool_decide (k ∈ RegExpPrototypeAccessors)
  | VObject prototype own =>
      if bool_decide (is_Some (own !! k)) then false
      else match prototype with
           | Some p => inheritsAccessor k p
           | None => false
           end
  | _ => false
  end.

(** The assignment [acc[k] = v] on the accumulator of an object literal, in
    strict code, which that of a module is.  The key [__proto__] is found as the accessor of
    [Object.prototype], whose setter replaces the prototype of [acc] when [v]
    is an object and does nothing otherwise: no own property is made.  Any
    other key is written as an own property, unless the chain of a replaced
    prototype has it as an accessor without setter, where the assignment
    throws a [TypeError]. *)
Definition setProperty (acc : JSObject) (k : string) (v : JSValue)
  : Completion JSObject :=
  if String.eqb k "__proto__" then
    Normal {| prototype := if isObject v then Some v else prototype acc;
              own := own acc |}
  else if bool_decide (is_Some (own acc !! k)) then
    Normal {| prototype := prototype acc; own := <[k := v]> (own acc) |}
  else if match prototype acc with
          | Some p => inheritsAccessor k p
          | None => false
          end then
    Abrupt TypeError
  else
    Normal {| prototype := prototype acc; own := <[k := v]> (own acc) |}.

(** ** Outcomes of a call *)

(** A call returns, throws, or exhausts the stack. *)
Inductive Outcome (A : Type) :=
| Return (a : A)
| Throw (e : JSError)
| StackOverflow.
Global Arguments Return {A} a.
Global Arguments Throw {A} e.
Global Arguments StackOverflow {A}.

Definition bind {A B} (o : Outcome A) (k : A -> Outcome B) : Outcome B :=
  match o with
  | Return a => k a
  | Throw e => Throw e
  | StackOverflow => StackOverflow
  end.

Definition complete {A} (c : Completion A) : Outcome A :=
  match c with
  | Normal a => Return a
  | Abrupt e => Throw e
  end.

(** [Array.prototype.map] with a callback that may not return: the elements
    are visited in order and the first failure ends the call. *)
Fixpoint mapOutcome {A B} (f : A -> Outcome B) (l : list A)
  : Outcome (list B) :=
  match l with
  | [] => Return []
  | x :: l' =>
      bind (f x) (fun y => bind (mapOutcome f l') (fun ys => Return (y :: ys)))
  end.

(** [Array.prototype.reduce], likewise. *)
Fixpoint reduceOutcome {A B} (f : B -> A -> Outcome B) (l : list A) (acc : B)
  : Outcome B :=
  match l with
  | [] => Return acc
  | x :: l' => bind (f acc x) (fun acc' => reduceOutcome f l' acc')
  end.

(** ** The resolver *)

(** What [mapTemplateSpan] returns. *)
Record MappedSpan := {
  canBeResolved : bool;
  stringLiteral : string;
}.

Fixpoint resolveToLiteral (fuel : nat) (expr : ts.Node) (program : ts.Program)
  {struct fuel} : Outcome ResolverResult :=
  match fuel with
  | O => StackOverflow
  | S fuel =>
      match expr with
      | ts.TemplateExpression head templateSpans =>
          resolveTemplateExpressionToLiteral fuel head templateSpans program
      | ts.NumericLiteral text =>
          Return (NumericLiteral (parseFloat text))
      | ts.BigIntLiteral text =>
          match BigInt (slice text 0 (-1)) with
          | Some z => Return (BigIntLiteral z)
          | None => Throw SyntaxError
          end
      | ts.StringLiteral text
      | ts.NoSubstitutionTemplateLiteral text =>
          Return (StringLiteral text)
      | ts.RegularExpressionLiteral text =>
          let pattern := slice text 1 (-1) in
          if regExpSyntaxOk pattern
          then Return (RegularExpressionLiteral pattern)
          else Throw SyntaxError
      | ts.TrueKeyword => Return TrueKeyword
      | ts.FalseKeyword => Return FalseKeyword
      | ts.PrefixUnaryExpression operator operand =>
          resolvePrefixUnaryExpressionToLiteral fuel operator operand program
      | ts.ArrayLiteralExpression elements =>
          bind (mapOutcome
                  (fun element => resolveToLiteral fuel element program)
                  elements)
            (fun results => Return (ArrayLiteralExpression (map value results)))
      | ts.ParenthesizedExpression expression =>
          resolveToLiteral fuel expression program
      | ts.ComputedPropertyName expression =>
          resolveToLiteral fuel expression program
      | ts.VariableDeclaration _ initializer =>
          match initializer with
          | Some initializer => resolveToLiteral fuel initializer program
          | None => Return Unresolved
          end
      | ts.AsExpression expression =>
          resolveToLiteral fuel expression program
      | ts.ObjectLiteralExpression properties =>
          bind (reduceOutcome
                  (fun acc prop =>
                     match prop with
                     | ts.PropertyAssignment name initializer =>
                         bind (resolveToLiteral fuel name program) (fun key =>
                         bind (resolveToLiteral fuel initializer program) (fun v =>
                         bind (complete (toPropertyKey (value key))) (fun k =>
                         complete (setProperty acc k (value v)))))
                     | _ => Return acc
                     end)
                  properties ∅)
            (fun acc => Return (ObjectLiteralExpression acc))
      | ts.Identifier _ escapedText =>
          let typeChecker := ts.getTypeChecker program in
          let symbol := ts.getSymbolAtLocation typeChecker expr in
          let symbol :=
            match symbol with
            | Some s =>
                if ts.flags s =? ts.SymbolFlags.Alias
                then Some (ts.getAliasedSymbol typeChecker s)
                else symbol
            | None => symbol
            end in
          match symbol with
          | None => Return (StringLiteral escapedText)
          | Some symbol => resolveSymbolToLiteral fuel symbol program
          end
      | _ => Return Unresolved
      end
  end

with resolvePrefixUnaryExpressionToLiteral (fuel : nat)
       (operator : ts.PrefixUnaryOperator) (operand : ts.Node)
       (program : ts.Program) {struct fuel} : Outcome ResolverResult :=
  match fuel with
  | O => StackOverflow
  | S fuel =>
      match operator with
      | ts.MinusToken =>
          bind (resolveToLiteral fuel operand program) (fun result =>
          match result with
          | NumericLiteral n => Return (NumericLiteral (negate n))
          | _ => Return Unresolved
          end)
      | _ => Return Unresolved
      end
  end

with resolveSymbolToLiteral (fuel : nat) (symbol : ts.Symbol)
       (program : ts.Program) {struct fuel} : Outcome ResolverResult :=
  match fuel with
  | O => StackOverflow
  | S fuel =>
      let typeChecker := ts.getTypeChecker program in
      let viaType :=
        resolveTypeToLiteral fuel (ts.getTypeOfSymbol typeChecker symbol) program in
      if ts.flags symbol =? ts.SymbolFlags.Property then
        Return (StringLiteral (ts.escapedName symbol))
      else if ts.flags symbol =? ts.SymbolFlags.ObjectLiteral then
        match ts.valueDeclaration symbol with
        | Some declaration => resolveToLiteral fuel declaration program
        | None => viaType
        end
      else if ts.flags symbol =? ts.SymbolFlags.BlockScopedVariable then
        match ts.valueDeclaration symbol with
        | Some declaration => resolveToLiteral fuel declaration program
        | None => viaType
        end
      else viaType
  end

with resolveTypeToLiteral (fuel : nat) (typeObject : ts.Type_)
       (program : ts.Program) {struct fuel} : Outcome ResolverResult :=
  match fuel with
  | O => StackOverflow
  | S fuel =>
      match typeObject with
      | ts.StringLiteralType v => Return (StringLiteral v)
      | ts.NumberLiteralType v => Return (NumericLiteral v)
      | ts.ObjectType _ _ _ => resolveObjectTypeToLiteral fuel typeObject program
      | ts.OtherType _ => Return Unresolved
      end
  end

with resolveObjectTypeToLiteral (fuel : nat) (typeObject : ts.Type_)
       (program : ts.Program) {struct fuel} : Outcome ResolverResult :=
  match fuel with
  | O => StackOverflow
  | S fuel =>
      match typeObject with
      | ts.ObjectType _ objectFlags symbol =>
          if objectFlags =? ts.ObjectFlags.Reference then
            resolveTypeReferenceToLiteral fuel typeObject program
          else
            match symbol with
            | Some symbol => resolveSymbolToLiteral fuel symbol program
            | None => Return Unresolved
            end
      | _ => Return Unresolved
      end
  end

with resolveTypeReferenceToLiteral (fuel : nat) (typeObject : ts.Type_)
       (program : ts.Program) {struct fuel} : Outcome ResolverResult :=
  match fuel with
  | O => StackOverflow
  | S fuel =>
      let typeChecker := ts.getTypeChecker program in
      let typeArguments := ts.getTypeArguments typeChecker typeObject in
      bind (mapOutcome (fun arg => resolveTypeToLiteral fuel arg program)
              typeArguments)
        (fun results => Return (ArrayLiteralExpression (map value results)))
  end

with resolveTemplateExpressionToLiteral (fuel : nat) (head : string)
       (templateSpans : list ts.TemplateSpan) (program : ts.Program)
       {struct fuel} : Outcome ResolverResult :=
  match fuel with
  | O => StackOverflow
  | S fuel =>
      bind (mapOutcome (fun span => mapTemplateSpan fuel span program)
              templateSpans)
        (fun mappedSpans =>
           if forallb canBeResolved mappedSpans
           then Return (StringLiteral (head +:+ join (map stringLiteral mappedSpans)))
           else Return Unresolved)
  end

with mapTemplateSpan (fuel : nat) (node : ts.TemplateSpan)
       (program : ts.Program) {struct fuel} : Outcome MappedSpan :=
  match fuel with
  | O => StackOverflow
  | S fuel =>
      let expression := node.1 in
      let literal := node.2 in
      bind (resolveToLiteral fuel expression program) (fun exprResult =>
      match exprResult with
      | StringLiteral v =>
          Return {| canBeResolved := true; stringLiteral := v +:+ literal |}
      | NumericLiteral v =>
          Return {| canBeResolved := true;
                    stringLiteral := numberToString v +:+ literal |}
      | BigIntLiteral v =>
          Return {| canBeResolved := true;
                    stringLiteral := pretty v +:+ literal |}
      | TrueKeyword =>
          Return {| canBeResolved := true; stringLiteral := "true" +:+ literal |}
      | FalseKeyword =>
          Return {| canBeResolved := true; stringLiteral := "false" +:+ literal |}
      | _ => Return {| canBeResolved := false; stringLiteral := "" |}
      end)
  end.

End Resolver.

(** ** Notions used to state the properties *)

Section Specification.
Context `{H : Host} {E : Engine}.

(** [refines o o']: the outcome [o'] of a call with a larger budget is that
    of the call with the smaller one, unless the smaller one overflowed. *)
Definition refines {A} (o o' : Outcome A) : Prop :=
  o = StackOverflow \/ o = o'.

(** [settled f]: the call [f] has one outcome whatever the program, and
    that outcome is not the exhaustion of the stack. *)
Definition settled {A} (f : ts.Program -> Outcome A) : Prop :=
  exists o, o <> StackOverflow /\ forall program, f program = o.

(** Two programs whose checkers answer every query alike: the same model,
    unchanged between two calls. *)
Definition sameAnswers (program program' : ts.Program) : Prop :=
  let c := ts.getTypeChecker program in
  let c' := ts.getTypeChecker program' in
  (forall node, ts.getSymbolAtLocation c node = ts.getSymbolAtLocation c' node) /\
  (forall s, ts.getAliasedSymbol c s = ts.getAliasedSymbol c' s) /\
  (forall s, ts.getTypeOfSymbol c s = ts.getTypeOfSymbol c' s) /\
  (forall ty, ts.getTypeArguments c ty = ts.getTypeArguments c' ty).

(** The text a span's value contributes to a template, after section 4.5 of
    the specification: text as it is, numbers and integers in their decimal
    form, booleans as [true] and [false]; nothing else has one. *)
Definition stringified (r : ResolverResult) : option string :=
  match r with
  | StringLiteral s => Some s
  | NumericLiteral n => Some (numberToString n)
  | BigIntLiteral z => Some (pretty z)
  | TrueKeyword => Some "true"
  | FalseKeyword => Some "false"
  | _ => None
  end%string.

(** The text of a template whose spans resolved to [results]. *)
Definition interpolation (head : string) (spans : list ts.TemplateSpan)
  (results : list ResolverResult) : string :=
  head +:+ join (zip_with (fun span r => default "" (stringified r) +:+ span.2)
                   spans results).

(** [assigned n program properties entries]: [entries] are the key and
    value, in source order, of the property assignments among [properties]:
    the key node and the value node of each resolve with budget [n] and the
    key's value converts to the key text; the other members give nothing. *)
Inductive assigned (n : nat) (program : ts.Program)
  : list ts.Node -> list (string * JSValue) -> Prop :=
| assigned_nil : assigned n program [] []
| assigned_assignment name initializer key k v properties entries :
    resolveToLiteral n name program = Return key ->
    resolveToLiteral n initializer program = Return v ->
    toPropertyKey (value key) = Normal k ->
    assigned n program properties entries ->
    assigned n program (ts.PropertyAssignment name initializer :: properties)
      ((k, value v) :: entries)
| assigned_skip prop properties entries :
    (forall name initializer, prop <> ts.PropertyAssignment name initializer) ->
    assigned n program properties entries ->
    assigned n program (prop :: properties) entries.

(** The accumulator after the assignments [acc[k] = v] of the entries, in
    order. *)
Fixpoint storeAll (entries : list (string * JSValue)) (acc : JSObject)
  : Completion JSObject :=
  match entries with
  | [] => Normal acc
  | (k, v) :: entries' =>
      match setProperty acc k v with
      | Normal acc' => storeAll entries' acc'
      | Abrupt e => Abrupt e
      end
  end.

(** [contributes n program properties entries]: the property assignments
    among [properties] resolve to [entries], and the assignments of these to
    the accumulator of the literal, from [{}] on, all complete. *)
Definition contributes (n : nat) (program : ts.Program)
  (properties : list ts.Node) (entries : list (string * JSValue)) : Prop :=
  assigned n program properties entries
  /\ exists o, storeAll entries ∅ = Normal o.

(** The body of a pattern literal [/body/flags]: the text between the first
    delimiter and the last one. *)
Fixpoint beforeLastSlash (s : string) : option string :=
  match s with
  | EmptyString => None
  | String c s' =>
      match beforeLastSlash s' with
      | Some r => Some (String c r)
      | None => if Ascii.eqb c "/"%char then Some EmptyString else None
      end
  end.

Definition regExpBody (text : string) : string :=
  match text with
  | String _ rest => default rest (beforeLastSlash rest)
  | EmptyString => EmptyString
  end.

(** [narrowedTypeOf allLiterals program ty e]: [ty] is the narrowed ([as const])
    type the checker gives the literal expression [e].  A string or number
    literal has its literal type, a negated number the type of its negation,
    an array literal the tuple type of its elements' types, an object literal
    the anonymous object type of its own symbol.  The tuple type of an array
    literal with elements has the object flags [Reference]; that of the empty
    array literal is the tuple target itself, with the flags [Reference] and
    [Tuple] and no symbol.  With [allLiterals = true] the relation has the
    empty array literal and the boolean and arbitrary-precision literals,
    whose literal types have the flags [BooleanLiteral] and
    [BigIntLiteral]. *)
Inductive narrowedTypeOf (allLiterals : bool) (program : ts.Program)
  : ts.Type_ -> ts.Node -> Prop :=
| narrowed_string s :
    narrowedTypeOf allLiterals program (ts.StringLiteralType s) (ts.StringLiteral s)
| narrowed_template s :
    narrowedTypeOf allLiterals program (ts.StringLiteralType s)
      (ts.NoSubstitutionTemplateLiteral s)
| narrowed_number text :
    narrowedTypeOf allLiterals program (ts.NumberLiteralType (parseFloat text))
      (ts.NumericLiteral text)
| narrowed_negative text :
    narrowedTypeOf allLiterals program
      (ts.NumberLiteralType (negate (parseFloat text)))
      (ts.PrefixUnaryExpression ts.MinusToken (ts.NumericLiteral text))
| narrowed_true (Hall : allLiterals = true) :
    narrowedTypeOf allLiterals program (ts.OtherType ts.TypeFlags.BooleanLiteral)
      ts.TrueKeyword
| narrowed_false (Hall : allLiterals = true) :
    narrowedTypeOf allLiterals program (ts.OtherType ts.TypeFlags.BooleanLiteral)
      ts.FalseKeyword
| narrowed_bigint text (Hall : allLiterals = true) :
    narrowedTypeOf allLiterals program (ts.OtherType ts.TypeFlags.BigIntLiteral)
      (ts.BigIntLiteral text)
| narrowed_parenthesized ty e (Hinner : narrowedTypeOf allLiterals program ty e) :
    narrowedTypeOf allLiterals program ty (ts.ParenthesizedExpression e)
| narrowed_as ty e (Hinner : narrowedTypeOf allLiterals program ty e) :
    narrowedTypeOf allLiterals program ty (ts.AsExpression e)
| narrowed_empty_tuple id (Hall : allLiterals = true) :
    narrowedTypeOf allLiterals program
      (ts.ObjectType id (ts.ObjectFlags.Reference + ts.ObjectFlags.Tuple) None)
      (ts.ArrayLiteralExpression [])
| narrowed_tuple id symbol elements
    (Hnonempty : elements <> [])
    (Helements :
       narrowedTypesOf allLiterals program
         (ts.getTypeArguments (ts.getTypeChecker program)
            (ts.ObjectType id ts.ObjectFlags.Reference symbol))
         elements) :
    narrowedTypeOf allLiterals program
      (ts.ObjectType id ts.ObjectFlags.Reference symbol)
      (ts.ArrayLiteralExpression elements)
| narrowed_object id objectFlags symbol properties
    (Hreference : objectFlags <> ts.ObjectFlags.Reference)
    (Hflags : ts.flags symbol = ts.SymbolFlags.ObjectLiteral)
    (Hdeclaration :
       ts.valueDeclaration symbol
       = Some (ts.ObjectLiteralExpression properties)) :
    narrowedTypeOf allLiterals program (ts.ObjectType id objectFlags (Some symbol))
      (ts.ObjectLiteralExpression properties)
with narrowedTypesOf (allLiterals : bool) (program : ts.Program)
  : list ts.Type_ -> list ts.Node -> Prop :=
| narrowed_nil : narrowedTypesOf allLiterals program [] []
| narrowed_cons ty e tys es
    (Hhead : narrowedTypeOf allLiterals program ty e)
    (Htail : narrowedTypesOf allLiterals program tys es) :
    narrowedTypesOf allLiterals program (ty :: tys) (e :: es).

(** [aliasChain immediate s target]: [s] is an alias and, going from each
    alias to the symbol it immediately names ([import], [export ... from]),
    one reaches [target], the first symbol that is not an alias. *)
Inductive aliasChain (immediate : ts.Symbol -> option ts.Symbol)
  : ts.Symbol -> ts.Symbol -> Prop :=
| aliasChain_last s target
    (Halias : ts.flags s = ts.SymbolFlags.Alias)
    (Hnames : immediate s = Some target)
    (Htarget : ts.flags target <> ts.SymbolFlags.Alias) :
    aliasChain immediate s target
| aliasChain_hop s s' target
    (Halias : ts.flags s = ts.SymbolFlags.Alias)
    (Hnames : immediate s = Some s')
    (Hrest : aliasChain immediate s' target) :
    aliasChain immediate s target.

(** The contract of [getAliasedSymbol] at the symbol [s]: it follows all
    aliases and answers the symbol at the end of the chain. *)
Definition followsAliases (program : ts.Program)
  (immediate : ts.Symbol -> option ts.Symbol) (s : ts.Symbol) : Prop :=
  forall target, aliasChain immediate s target ->
    ts.getAliasedSymbol (ts.getTypeChecker program) s = target.

(** [forwards program e e' k]: [e] is resolved by resolving [e'], [k] calls
    deeper.  Parentheses, [as] expressions and computed names forward to
    their expression, a declaration to its initializer, an identifier to the
    declaration of its symbol when the symbol, or the symbol it is an alias
    of, is a block-scoped variable or an object literal. *)
Definition declared (s : ts.Symbol) (declaration : ts.Node) : Prop :=
  (ts.flags s = ts.SymbolFlags.BlockScopedVariable
   \/ ts.flags s = ts.SymbolFlags.ObjectLiteral)
  /\ ts.valueDeclaration s = Some declaration.

Inductive forwards (program : ts.Program) : ts.Node -> ts.Node -> nat -> Prop :=
| forwards_here e : forwards program e e 0
| forwards_parenthesized e e' k (Hinner : forwards program e e' k) :
    forwards program (ts.ParenthesizedExpression e) e' (S k)
| forwards_as e e' k (Hinner : forwards program e e' k) :
    forwards program (ts.AsExpression e) e' (S k)
| forwards_computed e e' k (Hinner : forwards program e e' k) :
    forwards program (ts.ComputedPropertyName e) e' (S k)
| forwards_declaration pos e e' k (Hinner : forwards program e e' k) :
    forwards program (ts.VariableDeclaration pos (Some e)) e' (S k)
| forwards_identifier pos escapedText s declaration e' k
    (Hsymbol :
       ts.getSymbolAtLocation (ts.getTypeChecker program)
         (ts.Identifier pos escapedText) = Some s)
    (Hdeclared : declared s declaration)
    (Hinner : forwards program declaration e' k) :
    forwards program (ts.Identifier pos escapedText) e' (S (S k))
| forwards_import pos escapedText s declaration e' k
    (Hsymbol :
       ts.getSymbolAtLocation (ts.getTypeChecker program)
         (ts.Identifier pos escapedText) = Some s)
    (Halias : ts.flags s = ts.SymbolFlags.Alias)
    (Hdeclared :
       declared (ts.getAliasedSymbol (ts.getTypeChecker program) s) declaration)
    (Hinner : forwards program declaration e' k) :
    forwards program (ts.Identifier pos escapedText) e' (S (S k)).

(** [literalTree e]: the resolution of [e] meets no identifier.  Only the
    nodes the resolver visits count: the operand of a negation, the elements
    of an array, the key and value of a property assignment of an object
    literal, the expressions of a template's spans, the expression under a
    wrapper and the initializer of a declaration. *)
Fixpoint literalTree (e : ts.Node) : bool :=
  match e with
  | ts.TemplateExpression _ templateSpans =>
      forallb (fun span : ts.Node * string =>
                 let (expression, _) := span in literalTree expression)
        templateSpans
  | ts.PrefixUnaryExpression ts.MinusToken operand => literalTree operand
  | ts.ArrayLiteralExpression elements => forallb literalTree elements
  | ts.ParenthesizedExpression expression
  | ts.ComputedPropertyName expression
  | ts.AsExpression expression
  | ts.VariableDeclaration _ (Some expression) => literalTree expression
  | ts.ObjectLiteralExpression properties =>
      forallb (fun prop =>
                 match prop with
                 | ts.PropertyAssignment name initializer =>
                     literalTree name && literalTree initializer
                 | _ => true
                 end)
        properties
  | ts.Identifier _ _ => false
  | _ => true
  end.

(** [frames e]: a number of stack frames that suffices for the resolution of
    a literal tree. *)
Fixpoint frames (e : ts.Node) : nat :=
  match e with
  | ts.TemplateExpression _ templateSpans =>
      3 + foldr (fun (span : ts.Node * string) acc =>
                   let (expression, _) := span in Nat.max (frames expression) acc)
            0%nat templateSpans
  | ts.PrefixUnaryExpression ts.MinusToken operand => 2 + frames operand
  | ts.PrefixUnaryExpression _ _ => 2
  | ts.ArrayLiteralExpression elements =>
      1 + foldr (fun element acc => Nat.max (frames element) acc) 0%nat elements
  | ts.ParenthesizedExpression expression
  | ts.ComputedPropertyName expression
  | ts.AsExpression expression
  | ts.VariableDeclaration _ (Some expression) => 1 + frames expression
  | ts.ObjectLiteralExpression properties =>
      1 + foldr (fun prop acc =>
                   match prop with
                   | ts.PropertyAssignment name initializer =>
                       Nat.max (Nat.max (frames name) (frames initializer)) acc
                   | _ => acc
                   end)
            0%nat properties
  | _ => 1
  end%nat.

End Specification.

(** ** Programs for the examples *)

(** A host whose numbers are the integers, with [None] for [NaN]; it serves
    the examples below, which use integer literals only.  Every pattern is
    taken to compile. *)
Definition digit (c : ascii) : option Z :=
  let n := Z.of_N (N_of_ascii c) in
  if (48 <=? n) && (n <=? 57) then Some (n - 48) else None.

Fixpoint leadingDigits (acc : option Z) (s : string) : option Z :=
  match s with
  | EmptyString => acc
  | String c s' =>
      match digit c with
      | Some d => leadingDigits (Some (default 0 acc * 10 + d)) s'
      | None => acc
      end
  end.

Fixpoint allDigits (acc : Z) (s : string) : option Z :=
  match s with
  | EmptyString => Some acc
  | String c s' =>
      match digit c with
      | Some d => allDigits (acc * 10 + d) s'
      | None => None
      end
  end.

Definition integerHost : Host := {|
  number := option Z;
  parseFloat := leadingDigits None;
  negate := fmap Z.opp;
  numberToString := fun n => match n with Some z => pretty z | None => "NaN" end;
  BigInt := allDigits 0;
  regExpSyntaxOk := fun _ => true;
  regExpToString := fun p => "/" +:+ p +:+ "/";
|}.

(** No example converts to a key an object whose prototype was replaced;
    the engine of the examples gives up on such a conversion. *)
Definition integerEngine : @Engine integerHost := {|
  exoticToPropertyKey := fun _ _ => Abrupt TypeError;
|}.

Section Fixtures.
Local Existing Instance integerHost.
Local Existing Instance integerEngine.

(** The number of the host for an integer. *)
Definition integer (z : Z) : @number integerHost := Some z.

Fixpoint assoc {A} (k : nat) (l : list (nat * A)) : option A :=
  match l with
  | [] => None
  | (k', a) :: l' => if Nat.eqb k k' then Some a else assoc k l'
  end.

(** The symbol the checker returns for an alias it cannot resolve. *)
Definition unknownSymbol : ts.Symbol := {|
  ts.symbolId := 0;
  ts.flags := ts.SymbolFlags.Property;
  ts.escapedName := "unknown";
  ts.valueDeclaration := None;
|}.

(** The symbol an alias immediately names, by the table [aliases]. *)
Definition immediateAlias (aliases : list (nat * ts.Symbol)) (s : ts.Symbol)
  : option ts.Symbol :=
  assoc (ts.symbolId s) aliases.

(** [getAliasedSymbol]: all aliases are followed, to the first symbol that is
    not one; an alias that names nothing gives [unknownSymbol]. *)
Fixpoint followAliases (aliases : list (nat * ts.Symbol)) (hops : nat)
  (s : ts.Symbol) : ts.Symbol :=
  if ts.flags s =? ts.SymbolFlags.Alias then
    match hops, immediateAlias aliases s with
    | S hops', Some s' => followAliases aliases hops' s'
    | _, _ => unknownSymbol
    end
  else s.

(** A program given by tables: the symbol bound at each identifier position,
    the symbol each alias immediately names, the type of each symbol and the
    arguments of each type reference. *)
Definition programOf (bindings : list (nat * ts.Symbol))
  (aliases : list (nat * ts.Symbol)) (types : list (nat * ts.Type_))
  (typeArguments : list (nat * list ts.Type_)) : ts.Program := {|
  ts.getTypeChecker := {|
    ts.getSymbolAtLocation := fun node =>
      match node with
      | ts.Identifier pos _ => assoc pos bindings
      | _ => None
      end;
    ts.getAliasedSymbol := followAliases aliases (length aliases);
    ts.getTypeOfSymbol := fun s =>
      default (ts.OtherType ts.TypeFlags.Any) (assoc (ts.symbolId s) types);
    ts.getTypeArguments := fun ty =>
      match ty with
      | ts.ObjectType id _ _ => default [] (assoc id typeArguments)
      | _ => []
      end;
  |}
|}.

(** A program that binds nothing. *)
Definition emptyProgram : ts.Program := programOf [] [] [] [].

(** [const str = "hello"; str;] *)
Definition strDeclaration : ts.Node :=
  ts.VariableDeclaration 6 (Some (ts.StringLiteral "hello")).
Definition strSymbol : ts.Symbol := {|
  ts.symbolId := 1;
  ts.flags := ts.SymbolFlags.BlockScopedVariable;
  ts.escapedName := "str";
  ts.valueDeclaration := Some strDeclaration;
|}.
Definition strUse : ts.Node := ts.Identifier 23 "str".
Definition strProgram : ts.Program := programOf [(23, strSymbol)%nat] [] [] [].

(** [function f() {} f;]: the type of [f] is the anonymous object type of the
    function, whose symbol is [f] again. *)
Definition fSymbol : ts.Symbol := {|
  ts.symbolId := 1;
  ts.flags := ts.SymbolFlags.Function;
  ts.escapedName := "f";
  ts.valueDeclaration := Some (ts.OtherNode ts.FunctionDeclaration);
|}.
Definition fType : ts.Type_ :=
  ts.ObjectType 1 ts.ObjectFlags.Anonymous (Some fSymbol).
Definition fUse : ts.Node := ts.Identifier 17 "f".
Definition fProgram : ts.Program :=
  programOf [(17, fSymbol)%nat] [] [(1, fType)%nat] [].

(** [import { STRING_CONSTANT } from './constants'; STRING_CONSTANT;] with
    [export const STRING_CONSTANT = 'hello world' as const;] *)
Definition constantSymbol : ts.Symbol := {|
  ts.symbolId := 1;
  ts.flags := ts.SymbolFlags.BlockScopedVariable;
  ts.escapedName := "STRING_CONSTANT";
  ts.valueDeclaration :=
    Some (ts.VariableDeclaration 13
            (Some (ts.AsExpression (ts.StringLiteral "hello world"))));
|}.
Definition importSymbol : ts.Symbol := {|
  ts.symbolId := 2;
  ts.flags := ts.SymbolFlags.Alias;
  ts.escapedName := "STRING_CONSTANT";
  ts.valueDeclaration := None;
|}.
Definition importUse : ts.Node := ts.Identifier 45 "STRING_CONSTANT".
Definition importProgram : ts.Program :=
  programOf [(45, importSymbol)%nat] [(2, constantSymbol)%nat] [] [].

(** The tuple types [readonly ["a", 1]] and [readonly [true]], and the
    literals [["a", 1]] and [[true]] they are the narrowed types of; the
    empty tuple type [readonly []]. *)
Definition tupleType : ts.Type_ := ts.ObjectType 7 ts.ObjectFlags.Reference None.
Definition tupleLiteral : ts.Node :=
  ts.ArrayLiteralExpression [ts.StringLiteral "a"; ts.NumericLiteral "1"].
Definition trueTupleType : ts.Type_ :=
  ts.ObjectType 8 ts.ObjectFlags.Reference None.
Definition trueTupleLiteral : ts.Node :=
  ts.ArrayLiteralExpression [ts.TrueKeyword].
Definition tupleProgram : ts.Program :=
  programOf [] [] []
    [(7%nat, [ts.StringLiteralType "a"; ts.NumberLiteralType (integer 1)]);
     (8%nat, [ts.OtherType ts.TypeFlags.BooleanLiteral])].

(** [({ hello: 123, ...rest, "hello": "x", n: null })], the first key an
    identifier bound to its property symbol. *)
Definition helloSymbol : ts.Symbol := {|
  ts.symbolId := 1;
  ts.flags := ts.SymbolFlags.Property;
  ts.escapedName := "hello";
  ts.valueDeclaration := None;
|}.
Definition objectLiteral : ts.Node :=
  ts.ObjectLiteralExpression
    [ts.PropertyAssignment (ts.Identifier 3 "hello") (ts.NumericLiteral "123");
     ts.SpreadAssignment (ts.Identifier 18 "rest");
     ts.PropertyAssignment (ts.StringLiteral "hello") (ts.StringLiteral "x");
     ts.PropertyAssignment (ts.Identifier 40 "n") (ts.OtherNode ts.NullKeyword)].
Definition objectProgram : ts.Program :=
  programOf [(3, helloSymbol)%nat] [] [] [].

(** [const key = "hello"; ({ [key]: 123 });] *)
Definition keySymbol : ts.Symbol := {|
  ts.symbolId := 1;
  ts.flags := ts.SymbolFlags.BlockScopedVariable;
  ts.escapedName := "key";
  ts.valueDeclaration :=
    Some (ts.VariableDeclaration 6 (Some (ts.StringLiteral "hello")));
|}.
Definition computedKeyLiteral : ts.Node :=
  ts.ParenthesizedExpression
    (ts.ObjectLiteralExpression
       [ts.PropertyAssignment
          (ts.ComputedPropertyName (ts.Identifier 27 "key"))
          (ts.NumericLiteral "123")]).
Definition keyProgram : ts.Program := programOf [(27, keySymbol)%nat] [] [] [].

(** [`${1} + ${2} = ${3}`] and [`a${null}b`]. *)
Definition sumTemplate : ts.Node :=
  ts.TemplateExpression ""
    [(ts.NumericLiteral "1", " + "); (ts.NumericLiteral "2", " = ");
     (ts.NumericLiteral "3", "")].
Definition nullTemplate : ts.Node :=
  ts.TemplateExpression "a" [(ts.OtherNode ts.NullKeyword, "b")].

(** [import { FLAG } from './b'; FLAG;] where [b] has
    [export { FLAG } from './a';] and [a] has [export const FLAG = true;]:
    the import names the re-export, an alias again, which names the
    constant. *)
Definition flagSymbol : ts.Symbol := {|
  ts.symbolId := 1;
  ts.flags := ts.SymbolFlags.BlockScopedVariable;
  ts.escapedName := "FLAG";
  ts.valueDeclaration := Some (ts.VariableDeclaration 13 (Some ts.TrueKeyword));
|}.
Definition reexportSymbol : ts.Symbol := {|
  ts.symbolId := 2;
  ts.flags := ts.SymbolFlags.Alias;
  ts.escapedName := "FLAG";
  ts.valueDeclaration := None;
|}.
Definition flagImportSymbol : ts.Symbol := {|
  ts.symbolId := 3;
  ts.flags := ts.SymbolFlags.Alias;
  ts.escapedName := "FLAG";
  ts.valueDeclaration := None;
|}.
Definition flagUse : ts.Node := ts.Identifier 30 "FLAG".
Definition chainAliases : list (nat * ts.Symbol) :=
  [(3, reexportSymbol); (2, flagSymbol)]%nat.
Definition chainProgram : ts.Program :=
  programOf [(30, flagImportSymbol)%nat] chainAliases
    [(1%nat, ts.OtherType ts.TypeFlags.BooleanLiteral);
     (2%nat, ts.OtherType ts.TypeFlags.BooleanLiteral);
     (3%nat, ts.OtherType ts.TypeFlags.BooleanLiteral)] [].

(** [declare const mode: "a"; mode;]: a declaration without initializer,
    of a literal type. *)
Definition modeSymbol : ts.Symbol := {|
  ts.symbolId := 1;
  ts.flags := ts.SymbolFlags.BlockScopedVariable;
  ts.escapedName := "mode";
  ts.valueDeclaration := Some (ts.VariableDeclaration 14 None);
|}.
Definition modeUse : ts.Node := ts.Identifier 25 "mode".
Definition modeProgram : ts.Program :=
  programOf [(25, modeSymbol)%nat] [] [(1%nat, ts.StringLiteralType "a")] [].

(** [function g(p: "a") { p; }]: the parameter is a function-scoped
    variable of a literal type. *)
Definition parameterSymbol : ts.Symbol := {|
  ts.symbolId := 1;
  ts.flags := ts.SymbolFlags.FunctionScopedVariable;
  ts.escapedName := "p";
  ts.valueDeclaration := Some (ts.OtherNode (ts.SyntaxKindCode 169));
|}.
Definition parameterUse : ts.Node := ts.Identifier 21 "p".
Definition parameterProgram : ts.Program :=
  programOf [(21, parameterSymbol)%nat] [] [(1%nat, ts.StringLiteralType "a")] [].

End Fixtures.

(** ** The stack budget only matters when it runs out *)

Section Stack.
Context `{H : Host} {E : Engine}.

Lemma refines_refl {A} (o : Outcome A) : refines o o.
Proof. by right. Qed.

Lemma refines_bind {A B} (o o' : Outcome A) (k k' : A -> Outcome B) :
  refines o o' -> (forall a, refines (k a) (k' a)) ->
  refines (bind o k) (bind o' k').
Proof.
  intros [-> | ->] Hk; [by left |].
  destruct o' as [a | e |]; simpl; [apply Hk | by right | by right].
Qed.

Lemma refines_mapOutcome {A B} (f g : A -> Outcome B) (l : list A) :
  (forall x, refines (f x) (g x)) ->
  refines (mapOutcome f l) (mapOutcome g l).
Proof.
  intros Hfg. induction l as [| x l IH]; simpl; [apply refines_refl |].
  apply refines_bind; [apply Hfg |]. intros y.
  apply refines_bind; [apply IH |]. intros ys. apply refines_refl.
Qed.

Lemma refines_reduceOutcome {A B} (f g : B -> A -> Outcome B) (l : list A) :
  (forall acc x, refines (f acc x) (g acc x)) ->
  forall acc, refines (reduceOutcome f l acc) (reduceOutcome g l acc).
Proof.
  intros Hfg. induction l as [| x l IH]; intros acc; simpl;
    [apply refines_refl |].
  apply refines_bind; [apply Hfg | apply IH].
Qed.

Lemma refines_Return {A} (a : A) (o : Outcome A) :
  refines (Return a) o -> o = Return a.
Proof. by intros [? | <-]. Qed.

Lemma sameAnswers_refl (program : ts.Program) : sameAnswers program program.
Proof. by repeat split. Qed.

(** A larger budget, against a model that answers alike, never changes an
    outcome other than [StackOverflow]. *)
Lemma resolver_refines (program program' : ts.Program) :
  sameAnswers program program' ->
  forall n m, (n <= m)%nat ->
  (forall expr, refines (resolveToLiteral n expr program)
                        (resolveToLiteral m expr program')) /\
  (forall op operand,
      refines (resolvePrefixUnaryExpressionToLiteral n op operand program)
              (resolvePrefixUnaryExpressionToLiteral m op operand program')) /\
  (forall symbol, refines (resolveSymbolToLiteral n symbol program)
                          (resolveSymbolToLiteral m symbol program')) /\
  (forall ty, refines (resolveTypeToLiteral n ty program)
                      (resolveTypeToLiteral m ty program')) /\
  (forall ty, refines (resolveObjectTypeToLiteral n ty program)
                      (resolveObjectTypeToLiteral m ty program')) /\
  (forall ty, refines (resolveTypeReferenceToLiteral n ty program)
                      (resolveTypeReferenceToLiteral m ty program')) /\
  (forall head spans,
      refines (resolveTemplateExpressionToLiteral n head spans program)
              (resolveTemplateExpressionToLiteral m head spans program')) /\
  (forall span, refines (mapTemplateSpan n span program)
                        (mapTemplateSpan m span program')).
Proof.
  intros (Hloc & Halias & Htype & Hargs).
  induction n as [| n IH]; intros m Hle.
  { repeat split; intros; by left. }
  destruct m as [| m]; [lia |].
  destruct (IH m ltac:(lia))
    as (IHe & IHu & IHs & IHt & IHo & IHr & IHte & IHsp).
  repeat split.
  - intros expr. destruct expr; simpl; try apply refines_refl; auto.
    + apply refines_bind; [| intros; apply refines_refl].
      apply refines_mapOutcome. auto.
    + destruct initializer; [auto | apply refines_refl].
    + apply refines_bind; [| intros; apply refines_refl].
      apply refines_reduceOutcome. intros acc prop.
      destruct prop; try apply refines_refl.
      apply refines_bind; [auto |]. intros key.
      apply refines_bind; [auto |]. intros v. apply refines_refl.
    + rewrite <- Hloc.
      destruct (ts.getSymbolAtLocation _ _) as [s |]; [| apply refines_refl].
      rewrite <- Halias. destruct (ts.flags s =? _); auto.
  - intros op operand. destruct op; simpl; try apply refines_refl.
    apply refines_bind; [auto | intros; apply refines_refl].
  - intros symbol. simpl. rewrite <- Htype.
    repeat (case_match; auto using refines_refl).
  - intros ty. destruct ty; simpl; auto using refines_refl.
  - intros ty. destruct ty; simpl; auto using refines_refl.
    repeat (case_match; auto using refines_refl).
  - intros ty. simpl. rewrite <- Hargs.
    apply refines_bind; [| intros; apply refines_refl].
    apply refines_mapOutcome. auto.
  - intros head spans. simpl.
    apply refines_bind; [| intros; apply refines_refl].
    apply refines_mapOutcome. auto.
  - intros span. simpl.
    apply refines_bind; [auto | intros; apply refines_refl].
Qed.

Lemma resolveToLiteral_budget program n m expr r :
  (n <= m)%nat ->
  resolveToLiteral n expr program = Return r ->
  resolveToLiteral m expr program = Return r.
Proof.
  intros Hle Hn.
  destruct (resolver_refines program program (sameAnswers_refl _) n m Hle)
    as (He & _).
  specialize (He expr). rewrite Hn in He. by apply refines_Return.
Qed.

Lemma resolveTypeToLiteral_budget program n m ty r :
  (n <= m)%nat ->
  resolveTypeToLiteral n ty program = Return r ->
  resolveTypeToLiteral m ty program = Return r.
Proof.
  intros Hle Hn.
  destruct (resolver_refines program program (sameAnswers_refl _) n m Hle)
    as (_ & _ & _ & Ht & _).
  specialize (Ht ty). rewrite Hn in Ht. by apply refines_Return.
Qed.

End Stack.

(** ** Properties of the resolver *)

Section Properties.
Context `{H : Host} {E : Engine}.

Lemma mapOutcome_Return {A B} (f : A -> Outcome B) (l : list A) (rs : list B) :
  Forall2 (fun x r => f x = Return r) l rs -> mapOutcome f l = Return rs.
Proof.
  induction 1 as [| x r l rs Hx _ IH]; simpl; [done |].
  by rewrite Hx, IH.
Qed.

Lemma mapOutcome_inv {A B} (f : A -> Outcome B) (l : list A) (rs : list B) :
  mapOutcome f l = Return rs -> Forall2 (fun x r => f x = Return r) l rs.
Proof.
  revert rs. induction l as [| x l IH]; simpl; intros rs Hrs.
  { injection Hrs as <-. constructor. }
  destruct (f x) as [y | |] eqn:Hx; simpl in Hrs; try discriminate.
  destruct (mapOutcome f l) as [ys | |]; simpl in Hrs; try discriminate.
  injection Hrs as <-. constructor; auto.
Qed.

Lemma returns_Forall2 {A B} (f : A -> Outcome B) (l : list A) :
  (forall x, x ∈ l -> exists r, f x = Return r) ->
  exists rs, Forall2 (fun x r => f x = Return r) l rs.
Proof.
  induction l as [| x l IH]; intros Hl; [by exists [] |].
  destruct (Hl x) as [r Hr]; [by left |].
  destruct IH as [rs Hrs]; [intros y Hy; apply Hl; by right |].
  exists (r :: rs). by constructor.
Qed.

(** An identifier for which the semantic model finds no symbol resolves,
    whatever the stack budget, to the text literal whose value is the
    [escapedText] of the node. *)
Lemma identifier_without_symbol program n pos escapedText :
  ts.getSymbolAtLocation (ts.getTypeChecker program)
    (ts.Identifier pos escapedText) = None ->
  resolveToLiteral (S n) (ts.Identifier pos escapedText) program
  = Return (StringLiteral escapedText).
Proof. intros Hnone. simpl. by rewrite Hnone. Qed.

Lemma aliasChain_target immediate s target :
  aliasChain immediate s target ->
  ts.flags s = ts.SymbolFlags.Alias /\ ts.flags target <> ts.SymbolFlags.Alias.
Proof. induction 1 as [s target Ha _ Ht | s s' target Ha _ _ [_ IH]]; by split. Qed.

(** C7, amended: when the symbol bound to an identifier has exactly the alias
    classification, the resolver asks the model once for the aliased symbol
    and dispatches on the classification of the answer; the model following
    all aliases, a chain of re-exports of any length is resolved to the
    symbol at its end, which is no alias. *)
Theorem alias_chain_resolved program immediate n pos escapedText s target :
  ts.getSymbolAtLocation (ts.getTypeChecker program)
    (ts.Identifier pos escapedText) = Some s ->
  aliasChain immediate s target ->
  followsAliases program immediate s ->
  resolveToLiteral (S n) (ts.Identifier pos escapedText) program
  = resolveSymbolToLiteral n target program
  /\ ts.flags target <> ts.SymbolFlags.Alias.
Proof.
  intros Hs Hchain Hfollows.
  destruct (aliasChain_target _ _ _ Hchain) as [Halias Htarget].
  split; [| exact Htarget].
  simpl. by rewrite Hs, Halias, Z.eqb_refl, (Hfollows target Hchain).
Qed.

(** C3: when the resolution of every element of an array literal returns, the
    resolution of the literal returns the array discriminant with one entry
    per element, in source order, each the raw value of its element's result;
    an unresolved element leaves an undefined entry, and the result is never
    the unresolved one. *)
Theorem array_literal_values program n elements :
  (forall e, e ∈ elements -> exists r, resolveToLiteral n e program = Return r) ->
  exists values,
    resolveToLiteral (S n) (ts.ArrayLiteralExpression elements) program
    = Return (ArrayLiteralExpression values)
    /\ length values = length elements
    /\ (forall i e r, elements !! i = Some e ->
          resolveToLiteral n e program = Return r ->
          values !! i = Some (value r))
    /\ (forall i e, elements !! i = Some e ->
          resolveToLiteral n e program = Return Unresolved ->
          values !! i = Some VUndefined).
Proof.
  intros Hall. destruct (returns_Forall2 _ _ Hall) as [rs Hrs].
  assert (Hi : forall i e r, elements !! i = Some e ->
            resolveToLiteral n e program = Return r ->
            (value <$> rs) !! i = Some (value r)).
  { intros i e r He Hr. rewrite list_lookup_fmap.
    destruct (Forall2_lookup_l _ _ _ _ _ Hrs He) as (r' & -> & Hr').
    rewrite Hr in Hr'. by injection Hr' as ->. }
  exists (value <$> rs). repeat split.
  - simpl. by rewrite (mapOutcome_Return _ _ _ Hrs).
  - rewrite length_fmap. symmetry. eapply Forall2_length, Hrs.
  - exact Hi.
  - intros i e He Hr. apply (Hi i e Unresolved He Hr).
Qed.


(** What [mapTemplateSpan] returns for a span whose expression resolved to
    [r]. *)
Lemma mapTemplateSpan_Return program n span r :
  resolveToLiteral n span.1 program = Return r ->
  mapTemplateSpan (S n) span program
  = Return {| canBeResolved := bool_decide (is_Some (stringified r));
              stringLiteral := match stringified r with
                               | Some s => s +:+ span.2
                               | None => ""
                               end |}.
Proof. intros Hr. simpl. rewrite Hr. by destruct r. Qed.

Lemma mapTemplateSpan_all program n spans results :
  Forall2 (fun span r => resolveToLiteral n span.1 program = Return r)
    spans results ->
  exists mapped,
    mapOutcome (fun span => mapTemplateSpan (S n) span program) spans
    = Return mapped
    /\ (Forall (fun r => is_Some (stringified r)) results ->
        forallb canBeResolved mapped = true
        /\ map stringLiteral mapped
           = zip_with (fun span r => default "" (stringified r) +:+ span.2)
               spans results)
    /\ (Exists (fun r => stringified r = None) results ->
        forallb canBeResolved mapped = false).
Proof.
  induction 1 as [| span r spans results Hr _ (mapped & Hmap & Hall & Hex)].
  { exists []. split; [done |]. split; [done | inversion 1]. }
  eexists (_ :: mapped). split; [| split].
  - cbn [mapOutcome]. rewrite (mapTemplateSpan_Return _ _ _ _ Hr).
    cbn [bind]. rewrite Hmap. reflexivity.
  - intros Hsome. apply Forall_cons in Hsome as [[s Hs] Hsome].
    destruct (Hall Hsome) as [Hb Hl]. cbn. rewrite Hs. cbn.
    by rewrite Hb, Hl.
  - intros Hnone. cbn. apply Exists_cons in Hnone as [Hnone | Hnone].
    + by rewrite Hnone.
    + rewrite (Hex Hnone). apply andb_false_r.
Qed.

(** C2: when the embedded expression of every span of a template resolves to
    a text, numeric, arbitrary-precision integer or boolean result, the
    template resolves to the text made of the head and, for each span in
    order, its stringified value followed by its literal text; when the
    expression of some span resolves to anything else, the unresolved result
    included, the template resolves to the unresolved result. *)
Theorem template_all_or_nothing program n head spans results :
  Forall2 (fun span r => resolveToLiteral n span.1 program = Return r)
    spans results ->
  (Forall (fun r => is_Some (stringified r)) results ->
   resolveToLiteral (S (S (S n))) (ts.TemplateExpression head spans) program
   = Return (StringLiteral (interpolation head spans results)))
  /\ (Exists (fun r => stringified r = None) results ->
      resolveToLiteral (S (S (S n))) (ts.TemplateExpression head spans) program
      = Return Unresolved).
Proof.
  intros Hspans.
  destruct (mapTemplateSpan_all _ _ _ _ Hspans) as (mapped & Hmap & Hall & Hex).
  split; intros Hr; remember (S n) as m eqn:Hm; simpl;
    rewrite Hmap; cbn [bind].
  - destruct (Hall Hr) as [-> ->]. reflexivity.
  - by rewrite (Hex Hr).
Qed.

(** The accumulator of the object literal's [reduce], after the entries. *)
Lemma reduce_assigned program n properties entries :
  assigned n program properties entries ->
  forall acc : JSObject,
    reduceOutcome
      (fun (acc : JSObject) prop =>
         match prop with
         | ts.PropertyAssignment name initializer =>
             bind (resolveToLiteral n name program) (fun key =>
             bind (resolveToLiteral n initializer program) (fun v =>
             bind (complete (toPropertyKey (value key))) (fun k =>
             complete (setProperty acc k (value v)))))
         | _ => Return acc
         end)
      properties acc
    = complete (storeAll entries acc).
Proof.
  induction 1 as [| name initializer key k v properties entries Hk Hv Hkey _ IH
                  | prop properties entries Hprop _ IH]; intros acc;
    cbn [reduceOutcome storeAll].
  - done.
  - rewrite Hk, Hv. cbn [bind]. rewrite Hkey. cbn [complete bind].
    destruct (setProperty acc k (value v)) as [acc' | e]; cbn [complete bind];
      [apply IH | done].
  - destruct prop; cbn [bind]; try apply IH. by edestruct Hprop.
Qed.

Lemma reduce_contributes program n properties entries :
  contributes n program properties entries ->
  exists o,
    storeAll entries ∅ = Normal o
    /\ resolveToLiteral (S n) (ts.ObjectLiteralExpression properties) program
       = Return (ObjectLiteralExpression o).
Proof.
  intros [Ha [o Ho]]. exists o. split; [done |].
  simpl. by rewrite (reduce_assigned _ _ _ _ Ha), Ho.
Qed.

Lemma storeAll_app entries entries' (acc : JSObject) :
  storeAll (entries ++ entries') acc
  = match storeAll entries acc with
    | Normal acc' => storeAll entries' acc'
    | Abrupt e => Abrupt e
    end.
Proof.
  revert acc. induction entries as [| [k v] entries IH]; intros acc; simpl;
    [done |].
  destruct (setProperty acc k v); [apply IH | done].
Qed.

(** An assignment leaves the own properties of other keys as they are. *)
Lemma setProperty_other (acc acc' : JSObject) k v k' :
  setProperty acc k v = Normal acc' -> k <> k' -> acc' !! k' = acc !! k'.
Proof.
  unfold setProperty, lookup, JSObject_lookup. intros Hset Hne.
  repeat case_match; simplify_eq; simpl; try done;
    by rewrite lookup_insert_ne.
Qed.

(** An assignment to a key other than [__proto__] that completes makes the
    key an own property with the value. *)
Lemma setProperty_stored (acc acc' : JSObject) k v :
  setProperty acc k v = Normal acc' -> k <> "__proto__" -> acc' !! k = Some v.
Proof.
  unfold setProperty, lookup, JSObject_lookup. intros Hset Hne.
  destruct (String.eqb k "__proto__") eqn:Hk;
    [by apply String.eqb_eq in Hk |].
  repeat case_match; simplify_eq; simpl; apply lookup_insert_eq.
Qed.

(** An assignment to [__proto__] makes no own property. *)
Lemma setProperty_proto (acc : JSObject) v :
  exists p, setProperty acc "__proto__" v
            = Normal {| prototype := p; own := own acc |}.
Proof. by eexists. Qed.

Lemma storeAll_other entries k :
  k ∉ entries.*1 ->
  forall acc acc' : JSObject,
    storeAll entries acc = Normal acc' -> acc' !! k = acc !! k.
Proof.
  induction entries as [| [k' v'] entries IH]; intros Hk acc acc' Hs;
    simpl in Hs.
  { by injection Hs as <-. }
  rewrite fmap_cons in Hk. apply not_elem_of_cons in Hk as [Hne Hk].
  destruct (setProperty acc k' v') as [acc1 | e] eqn:Hset; [| done].
  rewrite (IH Hk _ _ Hs). eapply setProperty_other; [exact Hset | done].
Qed.

(** C4 (failing input): in [({ ["__proto__"]: 1 })], and likewise in
    [({ "__proto__": 1 })], the property assignment contributes nothing: the
    literal resolves to the object without own property. *)
Theorem proto_key_not_stored program n :
  resolveToLiteral (S (S (S n)))
    (ts.ObjectLiteralExpression
       [ts.PropertyAssignment
          (ts.ComputedPropertyName (ts.StringLiteral "__proto__"))
          (ts.NumericLiteral "1")])
    program
  = Return (ObjectLiteralExpression ∅)
  /\ resolveToLiteral (S (S (S n)))
       (ts.ObjectLiteralExpression
          [ts.PropertyAssignment (ts.StringLiteral "__proto__")
             (ts.NumericLiteral "1")])
       program
     = Return (ObjectLiteralExpression ∅).
Proof. split; reflexivity. Qed.

(** The outcome of a call does not depend on the stack budget it is given,
    as long as the budget is not exhausted, nor on more of the model than
    its answers. *)
Lemma resolveToLiteral_budget_independent program program' expr n m o o' :
  sameAnswers program program' ->
  resolveToLiteral n expr program = o ->
  resolveToLiteral m expr program' = o' ->
  o <> StackOverflow -> o' <> StackOverflow ->
  o = o'.
Proof.
  intros Hsame Ho Ho' Hn Hm.
  destruct (resolver_refines program program' Hsame n (Nat.max n m) ltac:(lia))
    as ([HL | HL]%(fun X => X expr) & _); [congruence |].
  destruct (resolver_refines program' program' (sameAnswers_refl _)
              m (Nat.max n m) ltac:(lia))
    as ([HR | HR]%(fun X => X expr) & _); congruence.
Qed.

Lemma mapOutcome_types_budget program n m tys rs :
  (n <= m)%nat ->
  mapOutcome (fun arg => resolveTypeToLiteral n arg program) tys = Return rs ->
  mapOutcome (fun arg => resolveTypeToLiteral m arg program) tys = Return rs.
Proof.
  intros Hle Hn%mapOutcome_inv. apply mapOutcome_Return.
  eapply Forall2_impl; [exact Hn |]. intros ty r.
  by apply resolveTypeToLiteral_budget.
Qed.

Lemma bind_Return_inv {A B} (o : Outcome A) (k : A -> Outcome B) (b : B) :
  bind o k = Return b -> exists a, o = Return a /\ k a = Return b.
Proof. destruct o as [a | |]; simpl; [eauto | done | done]. Qed.

(** C8, amended: for a type that is the narrowed type of a literal expression
    built from string and number literals, negated numbers, array literals
    with at least one element and object literals, whatever syntactic
    resolution of the expression returns, type-based resolution of the type
    returns as well. *)
Theorem narrowed_type_recovers_literal program ty e r :
  narrowedTypeOf false program ty e ->
  (exists n, resolveToLiteral n e program = Return r) ->
  exists m, resolveTypeToLiteral m ty program = Return r.
Proof.
  intros Hty [n Hn]. revert ty e Hty n r Hn.
  fix IH 3 with
    (IHs tys es (Htys : narrowedTypesOf false program tys es) {struct Htys} :
       forall n rs,
         mapOutcome (fun e => resolveToLiteral n e program) es = Return rs ->
         exists m,
           mapOutcome (fun arg => resolveTypeToLiteral m arg program) tys
           = Return rs).
  - intros ty e Hty.
    destruct Hty as [s | s | text | text | Hs | Hs | text Hs
                    | ty e Hinner | ty e Hinner
                    | id Hs
                    | id symbol elements Hnonempty Helements
                    | id objectFlags symbol properties Href Hflags Hdecl];
      intros n r Hn; try discriminate Hs.
    + destruct n; [done |]. exists 1%nat. exact Hn.
    + destruct n; [done |]. exists 1%nat. exact Hn.
    + destruct n; [done |]. exists 1%nat. exact Hn.
    + destruct n as [| [| [| n]]]; try done. exists 1%nat. exact Hn.
    + destruct n; [done |]. exact (IH ty e Hinner n r Hn).
    + destruct n; [done |]. exact (IH ty e Hinner n r Hn).
    + destruct n; [done |]. simpl in Hn.
      apply bind_Return_inv in Hn as (rs & Hrs & Hr).
      destruct (IHs _ _ Helements _ _ Hrs) as [m Hm].
      exists (S (S (S m))). simpl. rewrite Hm. exact Hr.
    + exists (S (S (S n))). simpl.
      apply Z.eqb_neq in Href. rewrite Href, Hflags. simpl.
      by rewrite Hdecl.
  - intros tys es Htys n rs Hn.
    destruct Htys as [| ty e tys es Hhead Htail].
    + injection Hn as <-; by exists 0%nat.
    + simpl in Hn. apply bind_Return_inv in Hn as (r1 & Hr1 & Hn).
      apply bind_Return_inv in Hn as (rs' & Hrs & Hn). injection Hn as <-.
      destruct (IH _ _ Hhead _ _ Hr1) as [m1 Hm1].
      destruct (IHs _ _ Htail _ _ Hrs) as [m2 Hm2].
      exists (Nat.max m1 m2). simpl.
      rewrite (resolveTypeToLiteral_budget program m1 (Nat.max m1 m2) ty r1
                 ltac:(lia) Hm1).
      by rewrite (mapOutcome_types_budget program m2 (Nat.max m1 m2) tys rs'
                    ltac:(lia) Hm2).
Qed.

Lemma length_append (s t : string) :
  String.length (s +:+ t) = (String.length s + String.length t)%nat.
Proof. induction s as [| c s IH]; simpl; [done | by rewrite IH]. Qed.

Lemma substring_append (s t : string) :
  String.substring 0 (String.length s) (s +:+ t) = s.
Proof.
  induction s as [| c s IH]; simpl; [by destruct t | by rewrite IH].
Qed.

Lemma slice_delimiters (body : string) :
  slice ("/" +:+ (body +:+ "/")) 1 (-1) = body.
Proof.
  assert (Hlen : String.length ("/" +:+ (body +:+ "/"))
                 = S (S (String.length body))).
  { rewrite !length_append. simpl. lia. }
  unfold slice. rewrite Hlen.
  change (1 <? 0) with false. change (-1 <? 0) with true. cbv iota.
  rewrite Z.min_l by lia. rewrite !Z.max_l by lia.
  replace (Z.to_nat (Z.of_nat (S (S (String.length body))) + -1 - 1))
    with (String.length body) by lia.
  change (Z.to_nat 1) with 1%nat.
  change ("/" +:+ (body +:+ "/")) with (String "/" (body +:+ "/")).
  cbn [String.substring]. apply substring_append.
Qed.

Lemma regExpBody_delimiters (body : string) :
  regExpBody ("/" +:+ (body +:+ "/")) = body.
Proof.
  assert (Hbody : beforeLastSlash (body +:+ "/") = Some body).
  { induction body as [| c body IH]; simpl; [done | by rewrite IH]. }
  change ("/" +:+ (body +:+ "/")) with (String "/" (body +:+ "/")).
  unfold regExpBody. by rewrite Hbody.
Qed.

(** X6: A pattern literal without flags is compiled from its body. *)
Lemma pattern_literal_without_flags program n body :
  regExpSyntaxOk body = true ->
  resolveToLiteral (S n) (ts.RegularExpressionLiteral ("/" +:+ (body +:+ "/")))
    program
  = Return (RegularExpressionLiteral
              (regExpBody ("/" +:+ (body +:+ "/")))).
Proof.
  intros Hok. rewrite regExpBody_delimiters.
  cbn [resolveToLiteral]. by rewrite slice_delimiters, Hok.
Qed.

(** C6 (failing input): for the pattern literal [/hello/g] the resolver
    compiles [hello/], the text between the first character and the last,
    while the body of the literal is [hello]. *)
Theorem pattern_literal_with_flags program n :
  resolveToLiteral (S n) (ts.RegularExpressionLiteral "/hello/g") program
  = (if regExpSyntaxOk "hello/"
     then Return (RegularExpressionLiteral "hello/")
     else Throw SyntaxError)
  /\ regExpBody "/hello/g" = "hello".
Proof. split; reflexivity. Qed.

End Properties.

(** ** Further properties of the resolver *)

Section Coverage.
Context `{H : Host} {E : Engine}.

Lemma declared_not_alias s declaration :
  declared s declaration -> (ts.flags s =? ts.SymbolFlags.Alias) = false.
Proof. intros [[-> | ->] _]; reflexivity. Qed.

Lemma declared_symbol program s declaration n :
  declared s declaration ->
  resolveSymbolToLiteral (S n) s program = resolveToLiteral n declaration program.
Proof. intros [[Hf | Hf] Hd]; simpl; by rewrite Hf, Hd. Qed.

(** X1: Through any chain of parentheses, [as] expressions, computed names,
    declarations with an initializer and identifiers bound to a declared
    block-scoped variable or object literal, directly or through one alias,
    a node resolves to what the expression at the end of the chain resolves
    to, with the outcome that expression has when the calls of the chain are
    taken off the stack budget. *)
Theorem forwards_resolution program e e' k :
  forwards program e e' k ->
  forall n, resolveToLiteral (k + n) e program = resolveToLiteral n e' program.
Proof.
  induction 1 as [e | e e' k _ IH | e e' k _ IH | e e' k _ IH
                 | pos e e' k _ IH
                 | pos escapedText s declaration e' k Hs Hd _ IH
                 | pos escapedText s declaration e' k Hs Ha Hd _ IH];
    intros n; try (simpl; apply IH).
  - reflexivity.
  - change (S (S k) + n)%nat with (S (S (k + n))).
    remember (S (k + n)) as m eqn:Hm. simpl.
    rewrite Hs, (declared_not_alias _ _ Hd). subst m.
    rewrite (declared_symbol _ _ _ _ Hd). apply IH.
  - change (S (S k) + n)%nat with (S (S (k + n))).
    remember (S (k + n)) as m eqn:Hm. simpl.
    rewrite Hs, Ha, Z.eqb_refl. subst m.
    rewrite (declared_symbol _ _ _ _ Hd). apply IH.
Qed.

(** X3: An operator other than the minus sign is not evaluated: the expression
    resolves to the unresolved result whatever its operand is, without the
    operand being resolved. *)
Theorem prefix_operator_unsupported program n operator operand :
  operator <> ts.MinusToken ->
  resolveToLiteral (S (S n)) (ts.PrefixUnaryExpression operator operand) program
  = Return Unresolved.
Proof. intros Hop. by destruct operator. Qed.

(** X4: The negation of an operand that resolves to a number is the negated
    number; the negation of an operand that resolves to anything else, an
    arbitrary-precision integer included, is unresolved. *)
Theorem prefix_minus program n operand r :
  resolveToLiteral n operand program = Return r ->
  (forall x, r = NumericLiteral x ->
     resolveToLiteral (S (S n))
       (ts.PrefixUnaryExpression ts.MinusToken operand) program
     = Return (NumericLiteral (negate x)))
  /\ ((forall x, r <> NumericLiteral x) ->
      resolveToLiteral (S (S n))
        (ts.PrefixUnaryExpression ts.MinusToken operand) program
      = Return Unresolved).
Proof.
  intros Hr. split.
  - intros x ->. simpl. by rewrite Hr.
  - intros Hx. simpl. rewrite Hr.
    destruct r as [x | | | | | | | |]; try reflexivity. by destruct (Hx x).
Qed.

Lemma slice_last (s : string) (c : ascii) :
  slice (s +:+ String c "") 0 (-1) = s.
Proof.
  assert (Hlen : String.length (s +:+ String c "") = S (String.length s)).
  { rewrite length_append. simpl. lia. }
  unfold slice. rewrite Hlen.
  change (0 <? 0) with false. change (-1 <? 0) with true. cbv iota.
  rewrite Z.min_l by lia. rewrite !Z.max_l by lia.
  replace (Z.to_nat (Z.of_nat (S (String.length s)) + -1 - 0))
    with (String.length s) by lia.
  change (Z.to_nat 0) with 0%nat. apply substring_append.
Qed.

(** X5: The value of an integer literal is read from its text without the last
    character, whatever that character is, and the text the host rejects
    makes the call throw; an empty text is read as the empty text. *)
Theorem big_integer_suffix program n digits c :
  resolveToLiteral (S n) (ts.BigIntLiteral (digits +:+ String c "")) program
  = match BigInt digits with
    | Some z => Return (BigIntLiteral z)
    | None => Throw SyntaxError
    end
  /\ resolveToLiteral (S n) (ts.BigIntLiteral "") program
     = match BigInt "" with
       | Some z => Return (BigIntLiteral z)
       | None => Throw SyntaxError
       end.
Proof. split; cbn [resolveToLiteral]; [by rewrite slice_last | reflexivity]. Qed.

(** X7: An object literal none of whose members is a property assignment
    (shorthands, spreads, methods, accessors) resolves to the empty object,
    and nothing inside its members is resolved. *)
Theorem object_without_assignments program n properties :
  (forall prop, prop ∈ properties ->
     forall name initializer, prop <> ts.PropertyAssignment name initializer) ->
  resolveToLiteral (S n) (ts.ObjectLiteralExpression properties) program
  = Return (ObjectLiteralExpression ∅).
Proof.
  intros Hnone. simpl.
  generalize (∅ : JSObject). induction properties as [| prop properties IH];
    intros acc; [reflexivity |].
  assert (Hprop := Hnone prop ltac:(by left)).
  cbn [reduceOutcome].
  destruct prop; try (cbn [bind]; apply IH; intros; apply Hnone; by right).
  by edestruct Hprop.
Qed.

(** X8: Object literals whose property assignments resolve to the same entries
    resolve to the same result: whether a key is written as an identifier, a
    string, a number or a computed name does not matter beyond the text it
    gives, nor do the members that are not property assignments. *)
Theorem same_entries_same_object program n properties properties' entries :
  contributes n program properties entries ->
  contributes n program properties' entries ->
  resolveToLiteral (S n) (ts.ObjectLiteralExpression properties) program
  = resolveToLiteral (S n) (ts.ObjectLiteralExpression properties') program.
Proof.
  intros Hc Hc'.
  destruct (reduce_contributes _ _ _ _ Hc) as (o & Ho & ->).
  destruct (reduce_contributes _ _ _ _ Hc') as (o' & Ho' & ->).
  congruence.
Qed.

Lemma mapOutcome_failure {A B} (f : A -> Outcome B) before x after e :
  (forall b, b ∈ before -> exists r, f b = Return r) ->
  f x = Throw e ->
  mapOutcome f (before ++ x :: after) = Throw e.
Proof.
  intros Hbefore Hx. induction before as [| b before IH]; simpl.
  - by rewrite Hx.
  - destruct (Hbefore b ltac:(by left)) as [r ->]. simpl.
    rewrite IH; [done |]. intros b' Hb'. apply Hbefore. by right.
Qed.

(** X10: A failure inside an array literal is not turned into a hole: when the
    resolution of an element throws, the elements before it having resolved,
    the resolution of the array throws the same error. *)
Theorem array_element_throws program n before element after e :
  (forall b, b ∈ before -> exists r, resolveToLiteral n b program = Return r) ->
  resolveToLiteral n element program = Throw e ->
  resolveToLiteral (S n)
    (ts.ArrayLiteralExpression (before ++ element :: after)) program
  = Throw e.
Proof.
  intros Hbefore He. simpl.
  by rewrite (mapOutcome_failure _ _ _ _ _ Hbefore He).
Qed.

(** X11: Nor is a failure inside a template turned into the unresolved result:
    when the expression of a span throws, the spans before it having
    resolved, the resolution of the template throws the same error. *)
Theorem template_span_throws program n head before expression literal after e :
  (forall span, span ∈ before ->
     exists r, resolveToLiteral n span.1 program = Return r) ->
  resolveToLiteral n expression program = Throw e ->
  resolveToLiteral (S (S (S n)))
    (ts.TemplateExpression head (before ++ (expression, literal) :: after))
    program
  = Throw e.
Proof.
  intros Hbefore He. remember (S n) as m eqn:Hm. simpl. subst m.
  rewrite (mapOutcome_failure _ before (expression, literal) after e); [done | |].
  - intros span Hspan. destruct (Hbefore span Hspan) as [r Hr].
    eexists. by apply mapTemplateSpan_Return.
  - simpl. by rewrite He.
Qed.

(** X12: A symbol that is resolved through its type and whose type is an object
    type, not a reference, with that same symbol (a function, a class, an
    enumeration, a namespace) has no resolution: every stack budget is
    exhausted. *)
Theorem self_typed_symbol_overflows program s id objectFlags :
  ts.flags s <> ts.SymbolFlags.Property ->
  ts.valueDeclaration s = None
  \/ (ts.flags s <> ts.SymbolFlags.ObjectLiteral
      /\ ts.flags s <> ts.SymbolFlags.BlockScopedVariable) ->
  ts.getTypeOfSymbol (ts.getTypeChecker program) s
  = ts.ObjectType id objectFlags (Some s) ->
  objectFlags <> ts.ObjectFlags.Reference ->
  forall n, resolveSymbolToLiteral n s program = StackOverflow.
Proof.
  intros Hp%Z.eqb_neq Hd Hty Hr%Z.eqb_neq n.
  induction n as [n IH] using lt_wf_ind.
  assert (Hstep : forall k, resolveSymbolToLiteral (S k) s program
                            = resolveTypeToLiteral k
                                (ts.ObjectType id objectFlags (Some s)) program).
  { intros k. simpl. rewrite Hp, Hty.
    destruct Hd as [-> | [Ho%Z.eqb_neq Hb%Z.eqb_neq]].
    - by repeat case_match.
    - by rewrite Ho, Hb. }
  destruct n as [| [| [| n]]]; try reflexivity.
  - by rewrite Hstep.
  - by rewrite Hstep.
  - rewrite Hstep. simpl. rewrite Hr. apply IH. lia.
Qed.

(** X13: An identifier bound to a block-scoped variable or object literal whose
    declaration has no initializer is unresolved: the type of the symbol is
    not consulted once a declaration is present. *)
Theorem identifier_without_initializer program n pos escapedText s declPos :
  ts.getSymbolAtLocation (ts.getTypeChecker program)
    (ts.Identifier pos escapedText) = Some s ->
  declared s (ts.VariableDeclaration declPos None) ->
  resolveToLiteral (S (S (S n))) (ts.Identifier pos escapedText) program
  = Return Unresolved.
Proof.
  intros Hs Hd. remember (S (S n)) as m eqn:Hm. simpl.
  rewrite Hs, (declared_not_alias _ _ Hd). subst m.
  by rewrite (declared_symbol _ _ _ _ Hd).
Qed.

(** X14: An identifier bound to a symbol of any other classification than alias,
    property, object literal and block-scoped variable (a [var], a parameter,
    a function) is resolved from the type of the symbol alone, whether or not
    the symbol has a declaration with an initializer. *)
Theorem identifier_through_type program n pos escapedText s :
  ts.getSymbolAtLocation (ts.getTypeChecker program)
    (ts.Identifier pos escapedText) = Some s ->
  ts.flags s <> ts.SymbolFlags.Alias ->
  ts.flags s <> ts.SymbolFlags.Property ->
  ts.flags s <> ts.SymbolFlags.ObjectLiteral ->
  ts.flags s <> ts.SymbolFlags.BlockScopedVariable ->
  resolveToLiteral (S (S n)) (ts.Identifier pos escapedText) program
  = resolveTypeToLiteral n
      (ts.getTypeOfSymbol (ts.getTypeChecker program) s) program.
Proof.
  intros Hs Ha%Z.eqb_neq Hp%Z.eqb_neq Ho%Z.eqb_neq Hb%Z.eqb_neq.
  remember (S n) as m eqn:Hm. simpl. rewrite Hs, Ha. subst m.
  simpl. by rewrite Hp, Ho, Hb.
Qed.

Lemma frames_positive e : (1 <= frames e)%nat.
Proof. destruct e; simpl; repeat case_match; lia. Qed.

Lemma settled_Return {A} (a : A) : settled (fun _ => Return a).
Proof. by exists (Return a). Qed.

Lemma settled_Throw {A} e : settled (fun _ => @Throw A e).
Proof. by exists (Throw e). Qed.

Lemma settled_complete {A} (c : Completion A) : settled (fun _ => complete c).
Proof. destruct c; [apply settled_Return | apply settled_Throw]. Qed.

Lemma settled_bind {A B} (f : ts.Program -> Outcome A)
  (k : ts.Program -> A -> Outcome B) :
  settled f -> (forall a, settled (fun program => k program a)) ->
  settled (fun program => bind (f program) (k program)).
Proof.
  intros (o & Ho & Hf) Hk. destruct o as [a | e |]; [| | done].
  - destruct (Hk a) as (o' & Ho' & Hka). exists o'. split; [done |].
    intros program. rewrite Hf. apply Hka.
  - exists (Throw e). split; [done |]. intros program. by rewrite Hf.
Qed.

Lemma settled_mapOutcome {A B} (f : ts.Program -> A -> Outcome B) (l : list A) :
  (forall x, x ∈ l -> settled (fun program => f program x)) ->
  settled (fun program => mapOutcome (f program) l).
Proof.
  induction l as [| x l IH]; intros Hl; simpl; [apply settled_Return |].
  apply settled_bind; [apply Hl; by left |]. intros y.
  apply settled_bind; [apply IH; intros; apply Hl; by right |].
  intros ys. apply settled_Return.
Qed.

Lemma settled_reduceOutcome {A B} (f : ts.Program -> B -> A -> Outcome B)
  (l : list A) :
  (forall acc x, x ∈ l -> settled (fun program => f program acc x)) ->
  forall acc, settled (fun program => reduceOutcome (f program) l acc).
Proof.
  induction l as [| x l IH]; intros Hl acc; simpl; [apply settled_Return |].
  apply settled_bind; [apply Hl; by left |]. intros acc'.
  apply IH. intros acc'' y Hy. apply Hl. by right.
Qed.

Lemma literalTree_budget n :
  forall e, (frames e <= n)%nat -> literalTree e = true ->
  settled (fun program => resolveToLiteral n e program).
Proof.
  induction n as [n IH] using lt_wf_ind. intros e Hf Hl.
  destruct n as [| n]; [pose proof (frames_positive e); lia |].
  destruct e; try discriminate Hl; try apply settled_Return.
  - (* template *)
    cbn [frames] in Hf. cbn [literalTree] in Hl.
    destruct n as [| [| n]]; try (simpl in Hf; lia).
    assert (Hspans : forall span, span ∈ templateSpans ->
              settled (fun program => resolveToLiteral n span.1 program)).
    { clear head. induction templateSpans as [| [e l] spans IHs];
        intros span Hspan; [by apply elem_of_nil in Hspan |].
      simpl in Hf, Hl. apply andb_prop in Hl as [Hl1 Hl2].
      apply elem_of_cons in Hspan as [-> | Hspan].
      - apply (IH n ltac:(lia) e ltac:(lia) Hl1).
      - apply IHs; [simpl; lia | done | done]. }
    simpl. apply settled_bind.
    + apply settled_mapOutcome. intros span Hspan.
      apply settled_bind; [by apply Hspans |].
      intros r. destruct r; apply settled_Return.
    + intros ms. destruct (forallb canBeResolved ms); apply settled_Return.
  - (* integer literal *)
    simpl. destruct (BigInt _); [apply settled_Return | apply settled_Throw].
  - (* pattern literal *)
    simpl. destruct (regExpSyntaxOk _); [apply settled_Return | apply settled_Throw].
  - (* prefix unary expression *)
    destruct n as [| n]; [destruct operator; simpl in Hf; lia |].
    destruct operator; try apply settled_Return.
    cbn [frames] in Hf. cbn [literalTree] in Hl. simpl.
    apply settled_bind; [apply (IH n ltac:(lia) e ltac:(lia) Hl) |].
    intros r. destruct r; apply settled_Return.
  - (* array literal *)
    cbn [frames] in Hf. cbn [literalTree] in Hl.
    assert (Helements : forall e, e ∈ elements ->
              settled (fun program => resolveToLiteral n e program)).
    { induction elements as [| e' elements IHe]; intros e He;
        [by apply elem_of_nil in He |].
      simpl in Hf, Hl. apply andb_prop in Hl as [Hl1 Hl2].
      apply elem_of_cons in He as [-> | He].
      - apply (IH n ltac:(lia) e' ltac:(lia) Hl1).
      - apply IHe; [simpl; lia | done | done]. }
    simpl. apply settled_bind; [by apply settled_mapOutcome |].
    intros rs. apply settled_Return.
  - (* parenthesized expression *)
    cbn [frames] in Hf. cbn [literalTree] in Hl.
    apply (IH n ltac:(lia) e ltac:(lia) Hl).
  - (* computed property name *)
    cbn [frames] in Hf. cbn [literalTree] in Hl.
    apply (IH n ltac:(lia) e ltac:(lia) Hl).
  - (* variable declaration *)
    destruct initializer as [e |]; [| apply settled_Return].
    cbn [frames] in Hf. cbn [literalTree] in Hl.
    apply (IH n ltac:(lia) e ltac:(lia) Hl).
  - (* as expression *)
    cbn [frames] in Hf. cbn [literalTree] in Hl.
    apply (IH n ltac:(lia) e ltac:(lia) Hl).
  - (* object literal *)
    cbn [frames] in Hf. cbn [literalTree] in Hl.
    assert (Hmembers : forall name initializer,
              ts.PropertyAssignment name initializer ∈ properties ->
              settled (fun program => resolveToLiteral n name program)
              /\ settled (fun program => resolveToLiteral n initializer program)).
    { induction properties as [| prop properties IHp];
        intros name initializer Hin; [by apply elem_of_nil in Hin |].
      simpl in Hf, Hl. apply andb_prop in Hl as [Hl1 Hl2].
      apply elem_of_cons in Hin as [<- | Hin].
      - apply andb_prop in Hl1 as [Hname Hinit]. split.
        + apply (IH n ltac:(lia) name ltac:(lia) Hname).
        + apply (IH n ltac:(lia) initializer ltac:(lia) Hinit).
      - apply IHp; [destruct prop; simpl; lia | done | done]. }
    simpl. apply settled_bind; [| intros acc; apply settled_Return].
    apply settled_reduceOutcome. intros acc prop Hprop.
    destruct prop; try apply settled_Return.
    destruct (Hmembers _ _ Hprop) as [Hname Hinit].
    apply settled_bind; [exact Hname |]. intros key.
    apply settled_bind; [exact Hinit |]. intros v.
    apply settled_bind; [apply settled_complete |]. intros k.
    apply settled_complete.
Qed.

(** X2: A tree in which the resolver meets no identifier has one outcome
    whatever the program, whose checker is not consulted, and whatever
    stack budget at least [frames e] the call is given: a result, or the
    error thrown by the engine for the text of a literal or for a key of an
    object literal; the stack is never exhausted. *)
Theorem literal_tree_settles e :
  literalTree e = true ->
  exists o, o <> StackOverflow /\
    forall program n,
      (frames e <= n)%nat -> resolveToLiteral n e program = o.
Proof.
  intros Hl.
  destruct (literalTree_budget (frames e) e ltac:(lia) Hl) as (o & Ho & Hfe).
  exists o. split; [done |]. intros program n Hn.
  destruct (resolver_refines program program (sameAnswers_refl _)
              (frames e) n Hn) as ([Hso | Heq]%(fun X => X e) & _).
  - rewrite Hfe in Hso. done.
  - by rewrite <- Heq, Hfe.
Qed.

Lemma assigned_app program n properties entries properties' entries' :
  assigned n program properties entries ->
  assigned n program properties' entries' ->
  assigned n program (properties ++ properties') (entries ++ entries').
Proof.
  induction 1 as [| name initializer key k v properties entries Hk Hv Hkey _ IH
                  | prop properties entries Hprop _ IH]; intros Hc'; simpl.
  - done.
  - by apply (assigned_assignment n program name initializer key k v);
      [| | | apply IH].
  - by apply assigned_skip; [| apply IH].
Qed.

(** A key that is no accessor of [RegExp.prototype] is inherited as an
    accessor from no prototype. *)
Lemma inheritsAccessor_plain k :
  k ∉ RegExpPrototypeAccessors -> forall o, inheritsAccessor k o = false.
Proof.
  intros Hk. fix IH 1. intros [| | | | pattern | | | prototype own]; simpl;
    try reflexivity.
  - by apply bool_decide_eq_false.
  - destruct (bool_decide _); [reflexivity |].
    destruct prototype as [p |]; [apply IH | reflexivity].
Qed.

Lemma setProperty_plain (acc : JSObject) k v :
  k <> "__proto__" -> k ∉ RegExpPrototypeAccessors ->
  setProperty acc k v
  = Normal {| prototype := prototype acc; own := <[k := v]> (own acc) |}.
Proof.
  intros Hproto%String.eqb_neq Hk. unfold setProperty. rewrite Hproto.
  destruct (bool_decide _); [reflexivity |].
  destruct (prototype acc) as [p |]; [| reflexivity].
  by rewrite (inheritsAccessor_plain k Hk).
Qed.

(** X9: A property assignment whose key does not resolve is stored under the key
    [undefined]: as the last member of an object literal it sets that key to
    its value, replacing what an earlier member stored there. *)
Theorem unresolved_key_is_undefined program n before entries name initializer v :
  contributes n program before entries ->
  resolveToLiteral n name program = Return Unresolved ->
  resolveToLiteral n initializer program = Return v ->
  exists m,
    resolveToLiteral (S n)
      (ts.ObjectLiteralExpression
         (before ++ [ts.PropertyAssignment name initializer])) program
    = Return (ObjectLiteralExpression m)
    /\ m !! "undefined" = Some (value v).
Proof.
  intros [Hbefore [o Ho]] Hname Hinit.
  assert (Ha : assigned n program
                 (before ++ [ts.PropertyAssignment name initializer])
                 (entries ++ [("undefined", value v)])).
  { apply assigned_app; [done |].
    apply (assigned_assignment n program name initializer Unresolved
             "undefined" v); [done | done | reflexivity | constructor]. }
  assert (Hstore : storeAll (entries ++ [("undefined", value v)]) ∅
                   = Normal {| prototype := prototype o;
                               own := <["undefined" := value v]> (own o) |}).
  { rewrite storeAll_app, Ho. simpl. rewrite setProperty_plain; [done | done |].
    intros Hin. apply (bool_decide_pack _) in Hin. by vm_compute in Hin. }
  eexists. split.
  - simpl. rewrite (reduce_assigned _ _ _ _ Ha), Hstore. reflexivity.
  - apply lookup_insert_eq.
Qed.

Lemma storeAll_proto es :
  forall acc m : JSObject,
    acc !! "__proto__" = None -> storeAll es acc = Normal m ->
    m !! "__proto__" = None.
Proof.
  induction es as [| [k v] es IH]; intros acc m Hacc Hs; simpl in Hs.
  { by injection Hs as <-. }
  destruct (setProperty acc k v) as [acc' |] eqn:Hset; [| done].
  apply (IH acc' m); [| done].
  destruct (decide (k = "__proto__")) as [-> | Hne].
  - destruct (setProperty_proto acc v) as [p Hp].
    rewrite Hp in Hset. injection Hset as <-. exact Hacc.
  - by rewrite (setProperty_other _ _ _ _ _ Hset Hne).
Qed.

(** X15: When the property assignments of an object literal resolve and are
    stored, the literal resolves to the object in which every key other than
    [__proto__] has, as an own property, the value of its last entry, and
    which has no own property for a key without entry, nor for
    [__proto__]. *)
Theorem object_entries_last_wins program n properties entries :
  contributes n program properties entries ->
  exists m,
    resolveToLiteral (S n) (ts.ObjectLiteralExpression properties) program
    = Return (ObjectLiteralExpression m)
    /\ (forall k v before after,
          entries = before ++ (k, v) :: after -> k ∉ after.*1 ->
          k <> "__proto__" -> m !! k = Some v)
    /\ (forall k, k ∉ entries.*1 -> m !! k = None)
    /\ m !! "__proto__" = None.
Proof.
  intros Hc. destruct (reduce_contributes _ _ _ _ Hc) as (m & Hm & Hr).
  exists m. split; [exact Hr |]. split; [| split].
  - intros k v before after -> Hk Hproto.
    rewrite storeAll_app in Hm.
    destruct (storeAll before ∅) as [acc |] eqn:Hbefore; [| done].
    simpl in Hm. destruct (setProperty acc k v) as [acc' |] eqn:Hset; [| done].
    rewrite (storeAll_other _ _ Hk _ _ Hm).
    by apply (setProperty_stored acc).
  - intros k Hk. by rewrite (storeAll_other _ _ Hk _ _ Hm).
  - by apply (storeAll_proto entries ∅ m).
Qed.

End Coverage.

(** ** The properties on the example programs *)

Section Examples.
Local Existing Instance integerHost.
Local Existing Instance integerEngine.

(** The cases of [index.spec.ts] that use integers. *)

Example test_decimal :
  resolveToLiteral 1 (ts.NumericLiteral "123") emptyProgram
  = Return (NumericLiteral (integer 123)).
Proof. reflexivity. Qed.

Example test_negative :
  resolveToLiteral 3
    (ts.PrefixUnaryExpression ts.MinusToken (ts.NumericLiteral "123"))
    emptyProgram
  = Return (NumericLiteral (integer (-123))).
Proof. reflexivity. Qed.

Example test_big_integer :
  resolveToLiteral 1 (ts.BigIntLiteral "123n") emptyProgram
  = Return (BigIntLiteral 123).
Proof. reflexivity. Qed.

Example test_template_without_substitution :
  resolveToLiteral 1 (ts.NoSubstitutionTemplateLiteral "hello") emptyProgram
  = Return (StringLiteral "hello").
Proof. reflexivity. Qed.

Example test_template_numeric :
  resolveToLiteral 4
    (ts.TemplateExpression "Value: " [(ts.NumericLiteral "123", "")])
    emptyProgram
  = Return (StringLiteral "Value: 123").
Proof. reflexivity. Qed.

Example test_template_multiple :
  resolveToLiteral 4 sumTemplate emptyProgram
  = Return (StringLiteral "1 + 2 = 3").
Proof. reflexivity. Qed.

Example test_regex :
  resolveToLiteral 1 (ts.RegularExpressionLiteral "/hello/") emptyProgram
  = Return (RegularExpressionLiteral "hello").
Proof. reflexivity. Qed.

Example test_array :
  resolveToLiteral 2
    (ts.ArrayLiteralExpression [ts.StringLiteral "hello"; ts.NumericLiteral "123"])
    emptyProgram
  = Return (ArrayLiteralExpression [VString "hello"; VNumber (integer 123)]).
Proof. reflexivity. Qed.

Example test_computed_property_name :
  resolveToLiteral 7 computedKeyLiteral keyProgram
  = Return (ObjectLiteralExpression
              {| prototype := None;
                 own := {[ "hello" := VNumber (integer 123) ]} |}).
Proof. reflexivity. Qed.

Example test_identifier :
  resolveToLiteral 4 strUse strProgram = Return (StringLiteral "hello").
Proof. reflexivity. Qed.

Example test_imported_constant :
  resolveToLiteral 5 importUse importProgram
  = Return (StringLiteral "hello world").
Proof. reflexivity. Qed.

Lemma fSymbol_overflows n : resolveSymbolToLiteral n fSymbol fProgram = StackOverflow.
Proof.
  induction n as [n IH] using lt_wf_ind.
  destruct n as [| [| [| n]]]; try reflexivity.
  transitivity (resolveSymbolToLiteral n fSymbol fProgram);
    [reflexivity | apply IH; lia].
Qed.

(** C1 (failing input): in [function f() {} f;] the resolution of the
    identifier [f] returns no result: the symbol of [f] leads to its type, the
    type to its symbol, and every stack budget is exhausted. *)
Theorem function_identifier_overflows n :
  resolveToLiteral n fUse fProgram = StackOverflow.
Proof. destruct n; [reflexivity |]. apply (fSymbol_overflows n). Qed.

(** C8, as stated, fails: [readonly [true]] is the narrowed type of the
    literal [[true]], which resolves to the array of [true], while the
    resolution of the type gives an array with an undefined entry. *)
Lemma boolean_tuple_not_recovered :
  ~ (forall ty e r,
       narrowedTypeOf true tupleProgram ty e ->
       (exists n, resolveToLiteral n e tupleProgram = Return r) ->
       exists m, resolveTypeToLiteral m ty tupleProgram = Return r).
Proof.
  intros Hclaim.
  destruct (Hclaim trueTupleType trueTupleLiteral
              (ArrayLiteralExpression [VBoolean true])) as [m Hm].
  - apply narrowed_tuple; [discriminate |]. simpl. by repeat constructor.
  - by exists 2%nat.
  - apply (resolveTypeToLiteral_budget _ m (Nat.max m 4)) in Hm; [| lia].
    assert (H4 : resolveTypeToLiteral 4 trueTupleType tupleProgram
                 = Return (ArrayLiteralExpression [VUndefined])) by reflexivity.
    apply (resolveTypeToLiteral_budget _ 4 (Nat.max m 4)) in H4; [| lia].
    congruence.
Qed.

(** C5 (failing input): the identifier [__foo], bound to no symbol, resolves
    to the text [___foo], the escaped form in which the parser stores the
    name, while its own name text is [__foo]. *)
Theorem unbound_identifier_escaped :
  resolveToLiteral 1 (ts.Identifier 0 (ts.escapeLeadingUnderscores "__foo"))
    emptyProgram
  = Return (StringLiteral "___foo")
  /\ ts.idText (ts.Identifier 0 (ts.escapeLeadingUnderscores "__foo")) = "__foo".
Proof. split; reflexivity. Qed.

(** C7, as stated, fails: the import of [FLAG] names the re-export, an alias
    again; were exactly one level followed, the resolver would dispatch on
    the re-export, which gives the unresolved result, but it resolves the
    identifier to [true], the value of the constant at the end of the
    chain. *)
Lemma alias_chain_not_one_hop :
  immediateAlias chainAliases flagImportSymbol = Some reexportSymbol
  /\ resolveSymbolToLiteral 4 reexportSymbol chainProgram = Return Unresolved
  /\ resolveToLiteral 5 flagUse chainProgram = Return TrueKeyword
  /\ ~ (immediateAlias chainAliases flagImportSymbol = Some reexportSymbol ->
        resolveToLiteral 5 flagUse chainProgram
        = resolveSymbolToLiteral 4 reexportSymbol chainProgram).
Proof.
  repeat split. intros Hclaim. specialize (Hclaim eq_refl). discriminate Hclaim.
Qed.

Lemma alias_chain_resolved_witness :
  resolveToLiteral 5 flagUse chainProgram
  = resolveSymbolToLiteral 4 flagSymbol chainProgram
  /\ resolveToLiteral 5 flagUse chainProgram = Return TrueKeyword.
Proof.
  split; [| reflexivity].
  apply (alias_chain_resolved chainProgram (immediateAlias chainAliases) 4 30
           "FLAG" flagImportSymbol flagSymbol).
  - reflexivity.
  - apply (aliasChain_hop _ flagImportSymbol reexportSymbol flagSymbol);
      [reflexivity | reflexivity |].
    apply aliasChain_last; [reflexivity | reflexivity | discriminate].
  - intros target Hchain.
    inversion Hchain as [s t Ha Hn Ht | s s' t Ha Hn Hrest]; subst.
    + injection Hn as <-. by destruct Ht.
    + injection Hn as <-.
      inversion Hrest as [s t Ha' Hn' Ht' | s s'' t Ha' Hn' Hrest']; subst.
      * by injection Hn' as <-.
      * injection Hn' as <-.
        apply aliasChain_target in Hrest' as [Hflag _]. discriminate Hflag.
Defined.

Lemma array_literal_values_witness :
  exists values,
    resolveToLiteral 2
      (ts.ArrayLiteralExpression
         [ts.StringLiteral "hello"; ts.OtherNode ts.NullKeyword;
          ts.NumericLiteral "123"])
      emptyProgram
    = Return (ArrayLiteralExpression values)
    /\ length values = 3%nat
    /\ values !! 1%nat = Some VUndefined.
Proof.
  destruct (array_literal_values emptyProgram 1
              [ts.StringLiteral "hello"; ts.OtherNode ts.NullKeyword;
               ts.NumericLiteral "123"])
    as (values & Hvalues & Hlength & _ & Hhole).
  - intros e He. repeat (apply elem_of_cons in He as [-> | He]);
      [by eexists .. | by apply elem_of_nil in He].
  - exists values. split; [exact Hvalues |]. split; [exact Hlength |].
    by apply (Hhole 1%nat (ts.OtherNode ts.NullKeyword)).
Defined.



Lemma template_all_or_nothing_witness :
  resolveToLiteral 4 sumTemplate emptyProgram
  = Return (StringLiteral "1 + 2 = 3")
  /\ resolveToLiteral 4 nullTemplate emptyProgram = Return Unresolved.
Proof.
  split.
  - apply (template_all_or_nothing emptyProgram 1 ""
             [(ts.NumericLiteral "1", " + "); (ts.NumericLiteral "2", " = ");
              (ts.NumericLiteral "3", "")]
             [NumericLiteral (integer 1); NumericLiteral (integer 2);
              NumericLiteral (integer 3)]).
    + by repeat constructor.
    + by repeat constructor.
  - apply (template_all_or_nothing emptyProgram 1 "a"
             [(ts.OtherNode ts.NullKeyword, "b")] [Unresolved]).
    + by repeat constructor.
    + by left.
Defined.

Lemma narrowed_type_recovers_literal_witness :
  exists m,
    resolveTypeToLiteral m tupleType tupleProgram
    = Return (ArrayLiteralExpression [VString "a"; VNumber (integer 1)]).
Proof.
  apply (narrowed_type_recovers_literal tupleProgram tupleType tupleLiteral).
  - apply narrowed_tuple; [discriminate |].
    apply (narrowed_cons false tupleProgram (ts.StringLiteralType "a")
             (ts.StringLiteral "a")); [apply narrowed_string |].
    apply (narrowed_cons false tupleProgram (ts.NumberLiteralType (integer 1))
             (ts.NumericLiteral "1"));
      [exact (narrowed_number false tupleProgram "1") |].
    apply narrowed_nil.
  - by exists 2%nat.
Defined.

End Examples.

(** ** The further properties on the example programs *)

Section CoverageExamples.
Local Existing Instance integerHost.
Local Existing Instance integerEngine.

Lemma forwards_resolution_witness :
  resolveToLiteral 6
    (ts.ParenthesizedExpression (ts.AsExpression (ts.Identifier 27 "key")))
    keyProgram
  = resolveToLiteral 1 (ts.StringLiteral "hello") keyProgram.
Proof.
  apply (forwards_resolution keyProgram
           (ts.ParenthesizedExpression (ts.AsExpression (ts.Identifier 27 "key")))
           (ts.StringLiteral "hello") 5 ).
  apply forwards_parenthesized, forwards_as.
  apply (forwards_identifier keyProgram 27 "key" keySymbol
           (ts.VariableDeclaration 6 (Some (ts.StringLiteral "hello")))).
  - reflexivity.
  - split; [by left | reflexivity].
  - apply forwards_declaration, forwards_here.
Defined.

Lemma prefix_operator_unsupported_witness :
  resolveToLiteral 2 (ts.PrefixUnaryExpression ts.ExclamationToken fUse) fProgram
  = Return Unresolved.
Proof.
  apply (prefix_operator_unsupported fProgram 0 ts.ExclamationToken fUse).
  discriminate.
Defined.

Lemma prefix_minus_witness :
  resolveToLiteral 3
    (ts.PrefixUnaryExpression ts.MinusToken (ts.NumericLiteral "123"))
    emptyProgram
  = Return (NumericLiteral (integer (-123)))
  /\ resolveToLiteral 3
       (ts.PrefixUnaryExpression ts.MinusToken (ts.BigIntLiteral "123n"))
       emptyProgram
     = Return Unresolved.
Proof.
  split.
  - exact (proj1 (prefix_minus emptyProgram 1 (ts.NumericLiteral "123")
                    (NumericLiteral (integer 123)) eq_refl)
             (integer 123) eq_refl).
  - apply (proj2 (prefix_minus emptyProgram 1 (ts.BigIntLiteral "123n")
                    (BigIntLiteral 123) eq_refl)).
    discriminate.
Defined.

Lemma object_without_assignments_witness :
  resolveToLiteral 1
    (ts.ObjectLiteralExpression
       [ts.ShorthandPropertyAssignment (ts.Identifier 3 "a");
        ts.SpreadAssignment fUse; ts.OtherNode ts.MethodDeclaration])
    fProgram
  = Return (ObjectLiteralExpression ∅).
Proof.
  apply (object_without_assignments fProgram 0).
  intros prop Hprop name initializer.
  repeat (apply elem_of_cons in Hprop as [-> | Hprop]); try discriminate.
  by apply elem_of_nil in Hprop.
Defined.

Lemma same_entries_same_object_witness :
  resolveToLiteral 6
    (ts.ObjectLiteralExpression
       [ts.PropertyAssignment (ts.ComputedPropertyName (ts.Identifier 27 "key"))
          (ts.NumericLiteral "123")])
    keyProgram
  = resolveToLiteral 6
      (ts.ObjectLiteralExpression
         [ts.SpreadAssignment (ts.Identifier 3 "rest");
          ts.PropertyAssignment (ts.StringLiteral "hello")
            (ts.NumericLiteral "123")])
      keyProgram.
Proof.
  apply (same_entries_same_object keyProgram 5 _ _
           [("hello", VNumber (integer 123))]).
  - split; [| by eexists].
    apply (assigned_assignment 5 keyProgram
             (ts.ComputedPropertyName (ts.Identifier 27 "key"))
             (ts.NumericLiteral "123") (StringLiteral "hello") "hello"
             (NumericLiteral (integer 123)));
      [reflexivity | reflexivity | reflexivity | apply assigned_nil].
  - split; [| by eexists].
    apply assigned_skip; [discriminate |].
    apply (assigned_assignment 5 keyProgram (ts.StringLiteral "hello")
             (ts.NumericLiteral "123") (StringLiteral "hello") "hello"
             (NumericLiteral (integer 123)));
      [reflexivity | reflexivity | reflexivity | apply assigned_nil].
Defined.

Lemma array_element_throws_witness :
  resolveToLiteral 2
    (ts.ArrayLiteralExpression
       [ts.StringLiteral "a"; ts.BigIntLiteral "12xn"; ts.TrueKeyword])
    emptyProgram
  = Throw SyntaxError.
Proof.
  apply (array_element_throws emptyProgram 1 [ts.StringLiteral "a"]
           (ts.BigIntLiteral "12xn") [ts.TrueKeyword] SyntaxError).
  - intros b Hb. apply elem_of_cons in Hb as [-> | Hb]; [by eexists |].
    by apply elem_of_nil in Hb.
  - reflexivity.
Defined.

Lemma template_span_throws_witness :
  resolveToLiteral 4
    (ts.TemplateExpression "n = "
       [(ts.NumericLiteral "1", " or "); (ts.BigIntLiteral "12xn", "")])
    emptyProgram
  = Throw SyntaxError.
Proof.
  apply (template_span_throws emptyProgram 1 "n = "
           [(ts.NumericLiteral "1", " or ")] (ts.BigIntLiteral "12xn") "" []
           SyntaxError).
  - intros span Hspan. apply elem_of_cons in Hspan as [-> | Hspan];
      [by eexists |].
    by apply elem_of_nil in Hspan.
  - reflexivity.
Defined.

Lemma self_typed_symbol_overflows_witness :
  resolveSymbolToLiteral 100 fSymbol fProgram = StackOverflow.
Proof.
  apply (self_typed_symbol_overflows fProgram fSymbol 1 ts.ObjectFlags.Anonymous).
  - discriminate.
  - right. split; discriminate.
  - reflexivity.
  - discriminate.
Defined.

Lemma identifier_without_initializer_witness :
  resolveToLiteral 3 modeUse modeProgram = Return Unresolved
  /\ ts.getTypeOfSymbol (ts.getTypeChecker modeProgram) modeSymbol
     = ts.StringLiteralType "a".
Proof.
  split; [| reflexivity].
  apply (identifier_without_initializer modeProgram 0 25 "mode" modeSymbol 14).
  - reflexivity.
  - split; [by left | reflexivity].
Defined.

Lemma identifier_through_type_witness :
  resolveToLiteral 3 parameterUse parameterProgram
  = resolveTypeToLiteral 1 (ts.StringLiteralType "a") parameterProgram.
Proof.
  apply (identifier_through_type parameterProgram 1 21 "p" parameterSymbol);
    [reflexivity | discriminate ..].
Defined.

Lemma literal_tree_settles_witness :
  exists o, o <> StackOverflow /\
    forall program n,
      (4 <= n)%nat ->
      resolveToLiteral n
        (ts.ObjectLiteralExpression
           [ts.PropertyAssignment
              (ts.ComputedPropertyName
                 (ts.ObjectLiteralExpression
                    [ts.PropertyAssignment (ts.StringLiteral "toString")
                       (ts.NumericLiteral "1")]))
              (ts.NumericLiteral "2")])
        program
      = o.
Proof.
  apply (literal_tree_settles
           (ts.ObjectLiteralExpression
              [ts.PropertyAssignment
                 (ts.ComputedPropertyName
                    (ts.ObjectLiteralExpression
                       [ts.PropertyAssignment (ts.StringLiteral "toString")
                          (ts.NumericLiteral "1")]))
                 (ts.NumericLiteral "2")])).
  reflexivity.
Defined.

Lemma pattern_literal_without_flags_witness :
  resolveToLiteral 1 (ts.RegularExpressionLiteral "/a\/b/") emptyProgram
  = Return (RegularExpressionLiteral "a\/b").
Proof.
  apply (pattern_literal_without_flags emptyProgram 0 "a\/b"). reflexivity.
Defined.

Lemma unresolved_key_is_undefined_witness :
  exists m,
    resolveToLiteral 3
      (ts.ObjectLiteralExpression
         [ts.PropertyAssignment
            (ts.ComputedPropertyName (ts.OtherNode ts.CallExpression))
            (ts.NumericLiteral "1");
          ts.PropertyAssignment
            (ts.ComputedPropertyName (ts.OtherNode ts.BinaryExpression))
            (ts.NumericLiteral "2")])
      emptyProgram
    = Return (ObjectLiteralExpression m)
    /\ m !! "undefined" = Some (VNumber (integer 2)).
Proof.
  apply (unresolved_key_is_undefined emptyProgram 2
           [ts.PropertyAssignment
              (ts.ComputedPropertyName (ts.OtherNode ts.CallExpression))
              (ts.NumericLiteral "1")]
           [("undefined", VNumber (integer 1))]
           (ts.ComputedPropertyName (ts.OtherNode ts.BinaryExpression))
           (ts.NumericLiteral "2") (NumericLiteral (integer 2))).
  - split; [| by eexists].
    apply (assigned_assignment 2 emptyProgram
             (ts.ComputedPropertyName (ts.OtherNode ts.CallExpression))
             (ts.NumericLiteral "1") Unresolved "undefined"
             (NumericLiteral (integer 1)));
      [reflexivity | reflexivity | reflexivity | apply assigned_nil].
  - reflexivity.
  - reflexivity.
Defined.

Lemma object_entries_last_wins_witness :
  exists m,
    resolveToLiteral 3 objectLiteral objectProgram
    = Return (ObjectLiteralExpression m)
    /\ m !! "hello" = Some (VString "x")
    /\ m !! "n" = Some VUndefined
    /\ m !! "rest" = None.
Proof.
  destruct (object_entries_last_wins objectProgram 2
              [ts.PropertyAssignment (ts.Identifier 3 "hello")
                 (ts.NumericLiteral "123");
               ts.SpreadAssignment (ts.Identifier 18 "rest");
               ts.PropertyAssignment (ts.StringLiteral "hello")
                 (ts.StringLiteral "x");
               ts.PropertyAssignment (ts.Identifier 40 "n")
                 (ts.OtherNode ts.NullKeyword)]
              [("hello", VNumber (integer 123)); ("hello", VString "x");
               ("n", VUndefined)])
    as (m & Hm & Hlast & Hnone & _).
  - split; [| by eexists].
    apply (assigned_assignment 2 objectProgram (ts.Identifier 3 "hello")
             (ts.NumericLiteral "123") (StringLiteral "hello") "hello"
             (NumericLiteral (integer 123)));
      [reflexivity | reflexivity | reflexivity |].
    apply assigned_skip; [discriminate |].
    apply (assigned_assignment 2 objectProgram (ts.StringLiteral "hello")
             (ts.StringLiteral "x") (StringLiteral "hello") "hello"
             (StringLiteral "x"));
      [reflexivity | reflexivity | reflexivity |].
    apply (assigned_assignment 2 objectProgram (ts.Identifier 40 "n")
             (ts.OtherNode ts.NullKeyword) (StringLiteral "n") "n" Unresolved);
      [reflexivity | reflexivity | reflexivity |].
    apply assigned_nil.
  - exists m. split; [exact Hm |]. split; [| split].
    + apply (Hlast "hello" (VString "x") [("hello", VNumber (integer 123))]
               [("n", VUndefined)]); [reflexivity | | discriminate].
      apply not_elem_of_cons. split; [discriminate | apply not_elem_of_nil].
    + apply (Hlast "n" VUndefined
               [("hello", VNumber (integer 123)); ("hello", VString "x")] []);
        [reflexivity | apply not_elem_of_nil | discriminate].
    + apply Hnone. repeat (apply not_elem_of_cons; split; [discriminate |]).
      apply not_elem_of_nil.
Defined.

End CoverageExamples.
